(** * LitClockTypewriter: the mode state machine of [typewriter.py]

    A shallow embedding of the consumer side of [TypewriterApp]
    (key decoding, the [;clock] command buffer, the typed page and its
    scroll offset, the bounded quote history, the quote sanitizer and the
    text wrapping used by both renderers), followed by the properties of
    the specification that concern them.

    Conventions.  A Python [str] is the list of its characters; a character
    is a code point below 256, so the character classes below are the
    Latin-1 part of the ones Python uses.  Python names are kept, including
    the leading underscore of private methods. *)

From Stdlib Require Import String Ascii DecimalString SpecFloat.
From Stdlib Require Import Bool Arith ZArith Lia List.
Import ListNotations.

(* ================================================================== *)
(** * Python strings *)
(* ================================================================== *)

Module Py.

Definition str := list ascii.

(** A string literal of the source. *)
Definition lit (s : string) : str := list_ascii_of_string s.

Definition ord (c : ascii) : nat := nat_of_ascii c.
Definition chr (n : nat) : ascii := ascii_of_nat n.

Definition between (lo hi : nat) (c : ascii) : bool :=
  (lo <=? ord c) && (ord c <=? hi).

Fixpoint str_eqb (a b : str) : bool :=
  match a, b with
  | [], [] => true
  | x :: a', y :: b' => Ascii.eqb x y && str_eqb a' b'
  | _, _ => false
  end.

(** [s[-n:]] for a positive [n]: the last [n] characters, all of [s] when
    it is shorter. *)
Definition last_chars (n : nat) (s : str) : str := skipn (length s - n) s.

(** [s[:-1]]: everything but the last character; the empty string stays
    empty. *)
Definition drop_last (s : str) : str := removelast s.

(** [s.startswith(p)]. *)
Fixpoint startswith (s p : str) : bool :=
  match p, s with
  | [], _ => true
  | x :: p', y :: s' => Ascii.eqb x y && startswith s' p'
  | _ :: _, [] => false
  end.

(** [s.endswith(suffix)]. *)
Definition endswith (s suffix : str) : bool :=
  str_eqb (last_chars (length suffix) s) suffix.

(** [sep.join(parts)]. *)
Fixpoint join (sep : str) (parts : list str) : str :=
  match parts with
  | [] => []
  | [p] => p
  | p :: rest => p ++ sep ++ join sep rest
  end.

(** [str.isspace] on one character, which is also the class [\s] of [re]
    on a [str] pattern: the ASCII blanks, the separators 0x1c-0x1f, NEL and
    the no-break space. *)
Definition isspace (c : ascii) : bool :=
  between 9 13 c || between 28 32 c || (ord c =? 133) || (ord c =? 160).

(** [\d] of [re]: decimal digits. *)
Definition isdigit (c : ascii) : bool := between 48 57 c.

(** [\w] of [re]: alphanumeric characters and the underscore. *)
Definition isword (c : ascii) : bool :=
  between 48 57 c || between 65 90 c || (ord c =? 95) || between 97 122 c
  || (ord c =? 170) || between 178 179 c || (ord c =? 181)
  || between 185 186 c || between 188 190 c
  || between 192 214 c || between 216 246 c || between 248 255 c.

(** [c.lower()] and [c.upper()] on one character.  The two characters of
    Latin-1 whose upper case leaves the range or is not a single character
    (0xb5, 0xdf, 0xff) are never passed: [upper] is applied to [a..z]
    only. *)
Definition lower (c : ascii) : ascii :=
  if between 65 90 c || (between 192 222 c && negb (ord c =? 215))
  then chr (ord c + 32) else c.

Definition upper (c : ascii) : ascii :=
  if between 97 122 c || (between 224 254 c && negb (ord c =? 247))
  then chr (ord c - 32) else c.

Fixpoint lstrip (s : str) : str :=
  match s with
  | c :: s' => if isspace c then lstrip s' else s
  | [] => []
  end.

Definition rstrip (s : str) : str := rev (lstrip (rev s)).

(** [s.strip()]. *)
Definition strip (s : str) : str := rstrip (lstrip s).

(** [s.expandtabs(tabsize)]: the column restarts after a line feed or a
    carriage return. *)
Fixpoint expandtabs_from (tabsize col : nat) (s : str) : str :=
  match s with
  | [] => []
  | c :: s' =>
      if ord c =? 9 then
        match tabsize with
        | 0 => expandtabs_from tabsize col s'
        | _ =>
            let incr := tabsize - col mod tabsize in
            repeat " "%char incr ++ expandtabs_from tabsize (col + incr) s'
        end
      else
        c :: expandtabs_from tabsize
               (if (ord c =? 10) || (ord c =? 13) then 0 else col + 1) s'
  end.

Definition expandtabs (tabsize : nat) (s : str) : str :=
  expandtabs_from tabsize 0 s.

(** Length of the longest prefix whose characters all satisfy [p]. *)
Fixpoint run (p : ascii -> bool) (s : str) : nat :=
  match s with
  | c :: s' => if p c then S (run p s') else 0
  | [] => 0
  end.

Definition head_is (p : ascii -> bool) (s : str) : bool :=
  match s with
  | c :: _ => p c
  | [] => false
  end.

(** [format(n, '02d')], the [{n:02d}] of an f-string, for a natural
    number. *)
Definition format_02d (n : nat) : str :=
  let digits := lit (NilEmpty.string_of_uint (Nat.to_uint n)) in
  match digits with
  | [] => lit "00"
  | [d] => "0"%char :: digits
  | _ => digits
  end.

End Py.

Import Py.

(* ================================================================== *)
(** * [textwrap.fill], as both renderers call it *)
(* ================================================================== *)

(** [textwrap.fill(text, LINE_LENGTH)] builds a [TextWrapper] with the
    defaults of the standard library: [expand_tabs], [replace_whitespace],
    [break_long_words], [break_on_hyphens] and [drop_whitespace] are set,
    [fix_sentence_endings] is not, both indents are empty, [tabsize] is 8
    and [max_lines] is [None].  The definitions follow [Lib/textwrap.py]
    under these settings. *)
Module textwrap.

(** [_whitespace = '\t\n\x0b\x0c\r '] *)
Definition is_whitespace (c : ascii) : bool :=
  between 9 13 c || (ord c =? 32).

Definition _munge_whitespace (text : str) : str :=
  map (fun c => if is_whitespace c then " "%char else c) (expandtabs 8 text).

(** ** [wordsep_re] *)

Definition is_dash (c : ascii) : bool := ord c =? 45.

(** [word_punct] is [\w] with the exclamation mark, both quotes, the
    ampersand, the full stop, the comma and the question mark;
    [letter = [^\d\W]]. *)
Definition word_punct (c : ascii) : bool :=
  isword c || existsb (Nat.eqb (ord c)) [33; 34; 39; 38; 46; 44; 63].

Definition letter (c : ascii) : bool := isword c && negb (isdigit c).

(** The lookarounds of [wordsep_re].  A lookbehind reads the text before
    the current position, given most recent character first. *)

(** [(?=-{2,}\w)] *)
Definition ahead_em_dash (s : str) : bool :=
  (2 <=? run is_dash s) && head_is isword (skipn (run is_dash s) s).

(** [(?<=word_punct)] *)
Definition behind_word_punct (before : str) : bool :=
  head_is word_punct before.

(** [(?= letter -? letter)] *)
Definition ahead_hyphenated (s : str) : bool :=
  match s with
  | a :: b :: rest => letter a && ((is_dash b && head_is letter rest) || letter b)
  | _ => false
  end.

(** [(?<=letter{2}-) | (?<=letter-letter-)], read just after the hyphen;
    [before] is the text before that hyphen. *)
Definition behind_hyphenated (before : str) : bool :=
  match before with
  | a :: b :: rest =>
      (letter a && letter b) || (letter a && is_dash b && head_is letter rest)
  | _ => false
  end.

(** The third alternative, a word that may be hyphenated: the lazy
    [nowhitespace+?] has taken [k] characters, [s] is what follows them.
    At each length the three endings are tried in the order the pattern
    lists them; when none applies one more character is taken. *)
Fixpoint word_end (before s : str) (k : nat) : nat :=
  match s with
  | [] => k
  | c :: s' =>
      if is_dash c && behind_hyphenated before && ahead_hyphenated s' then S k
      else if is_whitespace c then k
      else if behind_word_punct before && ahead_em_dash s then k
      else word_end (c :: before) s' (S k)
  end.

(** Length of the match of [wordsep_re] that starts where [s] starts; the
    alternatives are whitespace, an em-dash between words, and a word. *)
Definition wordsep_match (before s : str) : nat :=
  match s with
  | [] => 0
  | c :: s' =>
      if is_whitespace c then run is_whitespace s
      else if behind_word_punct before && ahead_em_dash s then run is_dash s
      else word_end (c :: before) s' 1
  end.

(** [wordsep_re.split(text)] without its empty strings.  Some alternative
    matches at every position, so the chunks are the successive matches.
    [k] counts the characters the current match still has to take and
    [cur] holds, reversed, the ones it has taken. *)
Fixpoint split_from (before s : str) (k : nat) (cur : str) : list str :=
  match s with
  | [] => match cur with [] => [] | _ => [rev cur] end
  | c :: s' =>
      match k with
      | S k' => split_from (c :: before) s' k' (c :: cur)
      | 0 =>
          match cur with [] => [] | _ => [rev cur] end
          ++ split_from (c :: before) s' (wordsep_match before s - 1) [c]
      end
  end.

Definition _split (text : str) : list str := split_from [] text 0 [].

(** ** [_wrap_chunks] *)

(** [chunk.strip() == ''] *)
Definition is_blank (chunk : str) : bool := str_eqb (strip chunk) [].

(** The inner [while]: chunks are moved to the current line as long as
    they fit. *)
Fixpoint take_fitting (width cur_len : nat) (chunks : list str)
  : list str * nat * list str :=
  match chunks with
  | c :: rest =>
      if cur_len + length c <=? width then
        let '(cur_line, n, remaining) := take_fitting width (cur_len + length c) rest in
        (c :: cur_line, n, remaining)
      else ([], cur_len, chunks)
  | [] => ([], cur_len, [])
  end.

(** [chunk.rfind('-', 0, stop)]; [None] stands for -1. *)
Fixpoint rfind_dash (chunk : str) (stop : nat) : option nat :=
  match stop, chunk with
  | S stop', c :: chunk' =>
      match rfind_dash chunk' stop' with
      | Some i => Some (S i)
      | None => if is_dash c then Some 0 else None
      end
  | _, _ => None
  end.

(** [_handle_long_word]: the piece of [chunk] that goes on the current
    line and the part that stays on the stack. *)
Definition _handle_long_word (chunk : str) (cur_len width : nat) : str * str :=
  let space_left := if width <? 1 then 1 else width - cur_len in
  let stop :=
    if space_left <? length chunk then
      match rfind_dash chunk space_left with
      | Some hyphen =>
          if (0 <? hyphen) && existsb (fun c => negb (is_dash c)) (firstn hyphen chunk)
          then hyphen + 1 else space_left
      | None => space_left
      end
    else space_left in
  (firstn stop chunk, skipn stop chunk).

(** One round of the outer [while]: the line it yields, if any, and the
    chunks that remain.  [started] says whether a line was stored
    before. *)
Definition wrap_line (width : nat) (chunks : list str) (started : bool)
  : option str * list str :=
  let chunks :=
    match chunks with
    | c :: rest => if is_blank c && started then rest else chunks
    | [] => []
    end in
  let '(cur_line, cur_len, chunks) := take_fitting width 0 chunks in
  let '(cur_line, chunks) :=
    match chunks with
    | c :: rest =>
        if width <? length c then
          let '(piece, kept) := _handle_long_word c cur_len width in
          (cur_line ++ [piece], kept :: rest)
        else (cur_line, chunks)
    | [] => (cur_line, chunks)
    end in
  let cur_line :=
    match rev cur_line with
    | c :: _ => if is_blank c then removelast cur_line else cur_line
    | [] => cur_line
    end in
  (match cur_line with [] => None | _ => Some (concat cur_line) end, chunks).

Definition size (chunks : list str) : nat :=
  length chunks + length (concat chunks).

Definition started (lines : list str) : bool :=
  match lines with [] => false | _ => true end.

(** The outer [while].  Every round shortens the stack of chunks, by a
    chunk or by a piece of one, so [size chunks] rounds are enough
    ([wrap_rounds_enough] below). *)
Fixpoint wrap_rounds (rounds width : nat) (chunks lines : list str) : list str :=
  match rounds, chunks with
  | S n, _ :: _ =>
      let '(line, remaining) := wrap_line width chunks (started lines) in
      wrap_rounds n width remaining
        (lines ++ match line with Some l => [l] | None => [] end)
  | _, _ => lines
  end.

Definition _wrap_chunks (width : nat) (chunks : list str) : list str :=
  wrap_rounds (size chunks) width chunks [].

Definition wrap (text : str) (width : nat) : list str :=
  _wrap_chunks width (_split (_munge_whitespace text)).

Definition fill (text : str) (width : nat) : str :=
  join [chr 10] (wrap text width).

End textwrap.

(* ================================================================== *)
(** * The regular expressions of [clean_quote_text] *)
(* ================================================================== *)

(** Every pattern of [clean_quote_text] is a sequence of character
    classes under greedy quantifiers and of zero-width assertions, so this
    is the fragment of [re] that is modelled, with the backtracking order
    of the library: a quantifier first takes as many characters as it may
    and gives them back one at a time. *)
Module re.

Inductive item : Type :=
| Chars (cls : ascii -> bool) (lo : nat) (hi : option nat)
    (** [cls{lo,hi}]; [cls+] and [cls*] have no upper bound *)
| Start
    (** [^] without [re.MULTILINE] *)
| Ahead_space_or_end.
    (** [(?=\s|$)]; before a final line feed [\s] holds as well *)

Definition pattern := list item.

Definition one (c : ascii) : item := Chars (Ascii.eqb c) 1 (Some 1).
Definition plus (cls : ascii -> bool) : item := Chars cls 1 None.
Definition star (cls : ascii -> bool) : item := Chars cls 0 None.
Definition times (cls : ascii -> bool) (lo hi : nat) : item :=
  Chars cls lo (Some hi).

(** [f (lo + n)], then [f (lo + n - 1)], down to [f lo]: the first
    success. *)
Fixpoint try_down (f : nat -> option nat) (lo n : nat) : option nat :=
  match f (lo + n) with
  | Some r => Some r
  | None =>
      match n with
      | 0 => None
      | S n' => try_down f lo n'
      end
  end.

(** The number of characters the pattern matches at the start of [s], if
    it matches there; [at_start] says whether [s] is the whole subject. *)
Fixpoint match_here (p : pattern) (at_start : bool) (s : str) : option nat :=
  match p with
  | [] => Some 0
  | Start :: p' => if at_start then match_here p' at_start s else None
  | Ahead_space_or_end :: p' =>
      if match s with [] => true | c :: _ => isspace c end
      then match_here p' at_start s else None
  | Chars cls lo hi :: p' =>
      let most :=
        match hi with
        | Some h => Nat.min h (run cls s)
        | None => run cls s
        end in
      if most <? lo then None
      else try_down
             (fun k => option_map (Nat.add k)
                         (match_here p' (at_start && (k =? 0)) (skipn k s)))
             lo (most - lo)
  end.

(** [re.sub(p, repl, s)] for a replacement without escapes.  The subject
    is read from left to right; [skip] counts the characters that belong
    to the match just replaced.  A match is looked for at every position
    outside a match, the end of the subject included. *)
Fixpoint sub_from (p : pattern) (repl : str) (at_start : bool) (skip : nat)
  (s : str) : str :=
  match s, skip with
  | [], 0 =>
      match match_here p at_start [] with
      | Some _ => repl
      | None => []
      end
  | [], S _ => []
  | _ :: s', S k => sub_from p repl false k s'
  | c :: s', 0 =>
      match match_here p at_start s with
      | Some (S k) => repl ++ sub_from p repl false k s'
      | Some 0 => repl ++ c :: sub_from p repl false 0 s'
      | None => c :: sub_from p repl false 0 s'
      end
  end.

Definition sub (p : pattern) (repl s : str) : str := sub_from p repl true 0 s.

(** [re.search(p, s) is not None] *)
Fixpoint search_from (p : pattern) (at_start : bool) (s : str) : bool :=
  match match_here p at_start s with
  | Some _ => true
  | None =>
      match s with
      | [] => false
      | _ :: s' => search_from p false s'
      end
  end.

Definition search (p : pattern) (s : str) : bool := search_from p true s.

End re.

(* ================================================================== *)
(** * [clean_quote_text] *)
(* ================================================================== *)

Definition is_A_or_P (c : ascii) : bool := (ord c =? 65) || (ord c =? 80).

(** [<[^>]+>] *)
Definition tag_re : re.pattern :=
  [re.one "<"; re.plus (fun c => negb (Ascii.eqb c ">")); re.one ">"]%char.

(** [\s+\d{1,2}:\d{2}:\d{2}\s+] *)
Definition seconds_re : re.pattern :=
  [re.plus isspace; re.times isdigit 1 2; re.one ":"; re.times isdigit 2 2;
   re.one ":"; re.times isdigit 2 2; re.plus isspace]%char.

(** [\s+\d{1,2}:\d{2}\s*[AP]M(?=\s|$)] *)
Definition meridiem_re : re.pattern :=
  [re.plus isspace; re.times isdigit 1 2; re.one ":"; re.times isdigit 2 2;
   re.star isspace; re.times is_A_or_P 1 1; re.one "M";
   re.Ahead_space_or_end]%char.

(** [^\s*\d{1,2}:\d{2}\s*[AP]M\s*] *)
Definition leading_meridiem_re : re.pattern :=
  [re.Start; re.star isspace; re.times isdigit 1 2; re.one ":";
   re.times isdigit 2 2; re.star isspace; re.times is_A_or_P 1 1;
   re.one "M"; re.star isspace]%char.

(** [\s+] *)
Definition spaces_re : re.pattern := [re.plus isspace].

Definition clean_quote_text (quote_text : str) : str :=
  match quote_text with
  | [] => quote_text
  | _ =>
      let text := re.sub tag_re (lit " ") quote_text in
      let text := re.sub seconds_re (lit " ") text in
      let text := re.sub meridiem_re (lit " ") text in
      let text := re.sub leading_meridiem_re (lit "") text in
      let text := re.sub spaces_re (lit " ") text in
      strip text
  end.

(* ================================================================== *)
(** * [math.floor(len(self.text) * 0.00700)] *)
(* ================================================================== *)

(** Python floats are IEEE 754 doubles; they are modelled by the
    specification of binary64 arithmetic of the standard library. *)
Module float.

Definition prec : Z := 53.
Definition emax : Z := 1024.

(** [float(n)] for an [int], rounded to nearest even. *)
Definition of_int (n : Z) : spec_float := binary_normalize prec emax n 0 false.

Definition mul : spec_float -> spec_float -> spec_float := SFmul prec emax.

(** The literal [0.00700] is the double [0x1.cac083126e979p-8], that is
    8070450532247929 / 2^60. *)
Definition literal_0_007 : spec_float :=
  S754_finite false 8070450532247929 (-60).

(** [math.floor]; it raises on infinities and on NaN. *)
Definition floor (x : spec_float) : option Z :=
  match x with
  | S754_zero _ => Some 0%Z
  | S754_finite s m e => Some (Z.shiftl (if s then Z.neg m else Z.pos m) e)
  | S754_infinity _ | S754_nan => None
  end.

End float.

(** The number of pixels one render moves the page up.  [math.floor]
    raises on an infinite product, which takes a text of more than
    10^300 characters; the last branch stands for that case. *)
Definition scroll (length_of_text : nat) : Z :=
  match float.floor (float.mul (float.of_int (Z.of_nat length_of_text))
                       float.literal_0_007) with
  | Some pixels => pixels
  | None => 0%Z
  end.

(* ================================================================== *)
(** * Key decoding *)
(* ================================================================== *)

Definition shift_map (c : ascii) : ascii :=
  nth (ord c - 48) (lit ")!@#$%^&*(") c.

(** [punct_map], built on every call from the shift state. *)
Definition punct_map (shift_pressed : bool) : list (str * str) :=
  [(lit "KEY_SEMICOLON", if shift_pressed then lit ":" else lit ";");
   (lit "KEY_COMMA", lit ",");
   (lit "KEY_DOT", lit ".");
   (lit "KEY_SLASH", lit "/");
   (lit "KEY_APOSTROPHE", lit "'");
   (lit "KEY_MINUS", lit "-");
   (lit "KEY_EQUAL", lit "=");
   (lit "KEY_LEFTBRACE", lit "[");
   (lit "KEY_RIGHTBRACE", lit "]");
   (lit "KEY_BACKSLASH", lit "\")].

Fixpoint lookup (key : str) (d : list (str * str)) : option str :=
  match d with
  | (k, v) :: d' => if str_eqb key k then Some v else lookup key d'
  | [] => None
  end.

Definition _evdev_key_to_char (shift_pressed : bool) (keycode : str)
  : option str :=
  if str_eqb keycode (lit "KEY_SPACE") then Some (lit "space")
  else if str_eqb keycode (lit "KEY_BACKSPACE") then Some (lit "backspace")
  else if str_eqb keycode (lit "KEY_ENTER") then Some (lit "enter")
  else
    let five := startswith keycode (lit "KEY_") && (length keycode =? 5) in
    let fifth := nth 4 keycode " "%char in
    if five && between 97 122 (lower fifth) then
      Some [if shift_pressed then upper (lower fifth) else lower fifth]
    else if five && between 48 57 fifth then
      Some [if shift_pressed then shift_map fifth else fifth]
    else lookup keycode (punct_map shift_pressed).

(* ================================================================== *)
(** * [TypewriterApp] *)
(* ================================================================== *)

Definition LINE_LENGTH : nat := 45.
Definition FIXED_X_OFFSET : Z := 150.
Definition START_Y_OFFSET : Z := 150.

(** [self.mode] holds one of the two strings ["clock"] and
    ["typewriter"]. *)
Inductive Mode : Type := clock | typewriter.

(** The attributes the event loop reads and writes. *)
Record TypewriterApp : Type := App {
  mode : Mode;
  command_buffer : str;
  text : str;
  y_offset : Z;
  clock_quotes : list str
}.

(** A row of the quote table, as [get_quote] returns it. *)
Record quote_row : Type := Row {
  row_time : str;
  row_time_natural : str;
  row_quote : str;
  row_source : str
}.

(** What [display_image_8bpp_memory] does with a frame: it returns, or it
    raises [TimeoutError]. *)
Inductive handoff : Type := shown | TimeoutError.

(** What the surroundings answer while one event is handled: the wall
    clock ([datetime.now()], as hour and minute), the quote table
    ([self.clock_data.get_quote], which draws at random among the rows of
    a minute) and the display.  Handling one event reads each of them at
    most once. *)
Record world : Type := World {
  now : nat * nat;
  get_quote : nat -> nat -> option quote_row;
  display : handoff
}.

(** What handling an event does to the console and to the display.  A
    frame is listed when it is handed to the display, whether the display
    takes it or not.  The line of pixel statistics that
    [_render_clock_display] prints depends on the rasterised text and is
    left out. *)
Inductive action : Type :=
| print (message : str)
| page_frame (draw_point : Z * Z) (lines : str)
| quotes_frame (combined_text : str).

Definition __init__ : TypewriterApp :=
  {| mode := clock; command_buffer := []; text := [];
     y_offset := START_Y_OFFSET; clock_quotes := [] |}.

Definition _render_typewriter (w : world) (self : TypewriterApp)
  : TypewriterApp * list action * handoff :=
  let lines := textwrap.fill (text self) LINE_LENGTH in
  let y := (y_offset self - scroll (length (text self)))%Z in
  let draw_point := (FIXED_X_OFFSET, y) in
  ({| mode := mode self; command_buffer := command_buffer self;
      text := text self; y_offset := y;
      clock_quotes := clock_quotes self |},
   [page_frame draw_point lines], display w).

(** The [match key] statement of [_process_typewriter_key]: what
    [self.text] becomes. *)
Definition match_key (key text : str) : str :=
  if str_eqb key (lit "space") then text ++ lit " "
  else if str_eqb key (lit "backspace") then drop_last text
  else if str_eqb key (lit "enter") then text ++ [" "; chr 10; " "]%char
  else text ++ key.

Definition _process_typewriter_key (w : world) (self : TypewriterApp)
  (key : str) : TypewriterApp * list action :=
  let self := {| mode := mode self; command_buffer := command_buffer self;
                 text := match_key key (text self); y_offset := y_offset self;
                 clock_quotes := clock_quotes self |} in
  let '(self, out, result) := _render_typewriter w self in
  match result with
  | shown => (self, out)
  | TimeoutError => (self, out ++ [print (lit "Display busy, keystroke buffered")])
  end.

Definition _render_clock_display (w : world) (self : TypewriterApp)
  : list action * handoff :=
  let all_quotes :=
    map (fun quote => textwrap.fill quote LINE_LENGTH) (clock_quotes self) in
  let combined_text := join [chr 10; chr 10; chr 10] all_quotes in
  ([quotes_frame combined_text], display w).

(** The [display_text] of [_update_clock_display]. *)
Definition display_text (w : world) (current_time : nat * nat) : str :=
  let '(hour, minute) := current_time in
  match get_quote w hour minute with
  | None => lit "No quote found for " ++ format_02d hour ++ lit ":"
            ++ format_02d minute
  | Some quote_data => clean_quote_text (row_quote quote_data)
  end.

Definition _update_clock_display (w : world) (self : TypewriterApp)
  (current_time : nat * nat) : TypewriterApp * list action :=
  let '(hour, minute) := current_time in
  let appended := clock_quotes self ++ [display_text w current_time] in
  let quotes := if 15 <? length appended then tl appended else appended in
  let self := {| mode := mode self; command_buffer := command_buffer self;
                 text := text self; y_offset := y_offset self;
                 clock_quotes := quotes |} in
  let '(out, result) := _render_clock_display w self in
  match result with
  | shown => (self, out)
  | TimeoutError =>
      (self, out ++ [print (lit "Display busy, skipping update for "
                            ++ format_02d hour ++ lit ":" ++ format_02d minute)])
  end.

Definition _enter_clock_mode (w : world) (self : TypewriterApp)
  : TypewriterApp * list action :=
  let self := {| mode := clock; command_buffer := command_buffer self;
                 text := text self; y_offset := y_offset self;
                 clock_quotes := [] |} in
  let '(self, out) := _update_clock_display w self (now w) in
  (self,
   print (lit "Entered clock mode. Press any key to return to typewriter mode.")
   :: out).

Definition _handle_keystroke (w : world) (self : TypewriterApp) (key : str)
  : TypewriterApp * list action :=
  match mode self with
  | clock =>
      ({| mode := typewriter; command_buffer := command_buffer self;
          text := []; y_offset := START_Y_OFFSET;
          clock_quotes := clock_quotes self |},
       [print (lit "Switched to typewriter mode. Type ';clock' to return to clock mode.")])
  | typewriter =>
      let buffer := command_buffer self ++ key in
      let buffer := if 6 <? length buffer then last_chars 6 buffer else buffer in
      let self := {| mode := mode self; command_buffer := buffer;
                     text := text self; y_offset := y_offset self;
                     clock_quotes := clock_quotes self |} in
      if endswith (command_buffer self) (lit ";clock") then
        let '(self, out) := _enter_clock_mode w self in
        ({| mode := mode self; command_buffer := [];
            text := text self; y_offset := y_offset self;
            clock_quotes := clock_quotes self |}, out)
      else _process_typewriter_key w self key
  end.

(** The events of [self.event_queue]. *)
Inductive event : Type :=
| key_event (key : str)
| clock_update (current : nat * nat).

(** The body of the loop of [run]. *)
Definition handle (w : world) (self : TypewriterApp) (e : event)
  : TypewriterApp * list action :=
  match e with
  | key_event data => _handle_keystroke w self data
  | clock_update data => _update_clock_display w self data
  end.

(** [run] before its loop: the quote of the current minute is shown. *)
Definition start (w : world) : TypewriterApp * list action :=
  _update_clock_display w __init__ (now w).

(** The events of a session, each with what the surroundings answered. *)
Fixpoint run (self : TypewriterApp) (session : list (world * event))
  : TypewriterApp :=
  match session with
  | [] => self
  | (w, e) :: rest => run (fst (handle w self e)) rest
  end.

(** The states the application goes through. *)
Inductive reachable : TypewriterApp -> Prop :=
| reachable_start (w : world) : reachable (fst (start w))
| reachable_handle (w : world) (self : TypewriterApp) (e : event) :
    reachable self -> reachable (fst (handle w self e)).

(* ================================================================== *)
(** * The two background threads *)
(* ================================================================== *)

(** [key_event.keystate] of evdev: [key_up], [key_down] or [key_hold],
    the last for the repeats of a key that stays down. *)
Inductive keystate : Type := key_up | key_down | key_hold.

(** What [read_loop] yields: an event of another type than [EV_KEY], or
    a key event with its key code and state.  [current_time] is what
    [time.time()] answers if the loop asks for it while it handles that
    event. *)
Inductive input_event : Type :=
| other_event
| ev_key (keycode : str) (state : keystate) (current_time : spec_float).

(** The literal [0.05] is the double [0x1.999999999999ap-5], that is
    7205759403792794 / 2^57. *)
Definition min_event_interval : spec_float :=
  S754_finite false 7205759403792794 (-57).

(** What [keyboard_read_loop] keeps from one event to the next. *)
Record keyboard : Type := Keyboard {
  shift_pressed : bool;
  last_event_time : spec_float
}.

(** Before the first event: [self.shift_pressed = False] and
    [last_event_time = 0]. *)
Definition keyboard_start : keyboard :=
  {| shift_pressed := false; last_event_time := S754_zero false |}.

Definition is_shift (keycode : str) : bool :=
  str_eqb keycode (lit "KEY_LEFTSHIFT") || str_eqb keycode (lit "KEY_RIGHTSHIFT").

(** The body of the [for] of [keyboard_read_loop]: the state it leaves
    and what it puts on the queue. *)
Definition keyboard_read (k : keyboard) (e : input_event)
  : keyboard * list event :=
  match e with
  | other_event => (k, [])
  | ev_key keycode state current_time =>
      if is_shift keycode then
        ({| shift_pressed := match state with key_down => true | _ => false end;
            last_event_time := last_event_time k |}, [])
      else
        match state with
        | key_down =>
            if SFltb (SFsub float.prec float.emax current_time
                        (last_event_time k)) min_event_interval
            then (k, [])
            else
              match _evdev_key_to_char (shift_pressed k) keycode with
              | Some (c :: char) =>
                  ({| shift_pressed := shift_pressed k;
                      last_event_time := current_time |},
                   [key_event (c :: char)])
              | _ => (k, [])
              end
        | _ => (k, [])
        end
  end.

(** [keyboard_read_loop] over the events read until the device goes
    away or the application stops. *)
Fixpoint keyboard_read_loop (k : keyboard) (events : list input_event)
  : keyboard * list event :=
  match events with
  | [] => (k, [])
  | e :: rest =>
      let '(k, put) := keyboard_read k e in
      let '(k, puts) := keyboard_read_loop k rest in
      (k, put ++ puts)
  end.

Definition minute_eqb (a b : nat * nat) : bool :=
  (fst a =? fst b) && (snd a =? snd b).

(** One round of the [while] of [clock_update_loop], every five seconds:
    [seen] is the mode the thread reads, [current] the hour and minute of
    [datetime.now()]. *)
Definition clock_tick (last_minute : option (nat * nat)) (seen : Mode)
  (current : nat * nat) : option (nat * nat) * list event :=
  match seen with
  | clock =>
      if match last_minute with
         | Some l => minute_eqb current l
         | None => false
         end
      then (last_minute, [])
      else (Some current, [clock_update current])
  | typewriter => (last_minute, [])
  end.

Fixpoint clock_update_loop (last_minute : option (nat * nat))
  (ticks : list (Mode * (nat * nat))) : list event :=
  match ticks with
  | [] => []
  | (seen, current) :: rest =>
      let '(last_minute, put) := clock_tick last_minute seen current in
      put ++ clock_update_loop last_minute rest
  end.

(* ================================================================== *)
(** * [find_typewriter_device] *)
(* ================================================================== *)

Module evdev.

(** What the function reads of an [evdev.InputDevice]: its name, its
    path, and [capabilities()], a dict from event types to the codes the
    device can send. *)
Record InputDevice : Type := Device {
  name : str;
  path : str;
  capabilities : list (nat * list nat)
}.

Definition EV_KEY : nat := 1.
Definition KEY_A : nat := 30.
Definition KEY_Z : nat := 44.

End evdev.

(** [needle in s] for two strings. *)
Fixpoint contains (s needle : str) : bool :=
  startswith s needle
  || match s with
     | [] => false
     | _ :: s' => contains s' needle
     end.

(** [capabilities[ecodes.EV_KEY]], if the key is there. *)
Fixpoint codes_of (event_type : nat) (capabilities : list (nat * list nat))
  : option (list nat) :=
  match capabilities with
  | (t, codes) :: rest =>
      if t =? event_type then Some codes else codes_of event_type rest
  | [] => None
  end.

Definition named_typewriter (device : evdev.InputDevice) : bool :=
  contains (map lower (evdev.name device)) (lit "typewriter").

Definition not_virtual_nor_hdmi (device : evdev.InputDevice) : bool :=
  negb (contains (map lower (evdev.name device)) (lit "virtual"))
  && negb (contains (map lower (evdev.name device)) (lit "hdmi")).

Definition named_keyboard (device : evdev.InputDevice) : bool :=
  contains (map lower (evdev.name device)) (lit "keyboard")
  && not_virtual_nor_hdmi device.

Definition has_letter_keys (device : evdev.InputDevice) : bool :=
  match codes_of evdev.EV_KEY (evdev.capabilities device) with
  | Some keys =>
      existsb (Nat.eqb evdev.KEY_A) keys && existsb (Nat.eqb evdev.KEY_Z) keys
      && not_virtual_nor_hdmi device
  | None => false
  end.

(** The three [for] loops; [None] stands for the [RuntimeError]. *)
Definition find_typewriter_device (devices : list evdev.InputDevice)
  : option evdev.InputDevice :=
  match find named_typewriter devices with
  | Some device => Some device
  | None =>
      match find named_keyboard devices with
      | Some device => Some device
      | None => find has_letter_keys devices
      end
  end.

(* ================================================================== *)
(** * [LiteratureClockData] *)
(* ================================================================== *)

Module literature_clock.

(** [self.quotes]: a dict from time codes to the rows of that time, in
    the order the keys were first stored. *)
Definition quotes := list (str * list quote_row).

(** [self.quotes[time_code]], if the key is there. *)
Fixpoint get (d : quotes) (time_code : str) : option (list quote_row) :=
  match d with
  | (k, rows) :: d' => if str_eqb time_code k then Some rows else get d' time_code
  | [] => None
  end.

(** [if time_code not in self.quotes: self.quotes[time_code] = []]
    followed by [self.quotes[time_code].append(row)]. *)
Fixpoint append (d : quotes) (time_code : str) (row : quote_row) : quotes :=
  match d with
  | (k, rows) :: d' =>
      if str_eqb time_code k then (k, rows ++ [row]) :: d'
      else (k, rows) :: append d' time_code row
  | [] => [(time_code, [row])]
  end.

(** The body of the [for] of [_load_csv], for one row of the reader: the
    dict and [quote_count]. *)
Definition load_row (state : quotes * nat) (row : list str) : quotes * nat :=
  match row with
  | time :: natural :: quote :: source :: _ =>
      let time_code := strip time in
      if existsb (Ascii.eqb ":") time_code then
        (append (fst state) time_code
           {| row_time := time_code; row_time_natural := strip natural;
              row_quote := strip quote; row_source := strip source |},
         S (snd state))
      else state
  | _ => state
  end.

(** [_load_csv] on the rows [csv.reader] yields. *)
Definition _load_csv (rows : list (list str)) : quotes * nat :=
  fold_left load_row rows ([], 0).

(** [random.choice(seq)] where [pick] is the number drawn; it raises
    [IndexError] on an empty sequence. *)
Definition choice {A : Type} (pick : nat) (seq : list A) : option A :=
  match seq with
  | [] => None
  | _ => nth_error seq (pick mod length seq)
  end.

Inductive answer : Type :=
| returns (quote : option quote_row)
| IndexError.

Definition get_quote (d : quotes) (pick hour minute : nat) : answer :=
  let time_code := format_02d hour ++ lit ":" ++ format_02d minute in
  match get d time_code with
  | None => returns None
  | Some quotes_for_time =>
      match choice pick quotes_for_time with
      | Some quote => returns (Some quote)
      | None => IndexError
      end
  end.

Definition get_time_count (d : quotes) : nat := length d.

Definition get_total_quotes (d : quotes) : nat :=
  list_sum (map (fun entry => length (snd entry)) d).

End literature_clock.

(* ================================================================== *)
(** * Definitions the statements use *)
(* ================================================================== *)

(** [self.clock_quotes] after [append] and the [pop(0)] that follows when
    there are more than 15 entries. *)
Definition appended (quotes : list str) (quote : str) : list str :=
  if 15 <? length (quotes ++ [quote]) then tl (quotes ++ [quote])
  else quotes ++ [quote].

(** [self.command_buffer] after [+= key] and the cut to six characters. *)
Definition buffered (buffer key : str) : str :=
  if 6 <? length (buffer ++ key) then last_chars 6 (buffer ++ key)
  else buffer ++ key.

(** The console line a handler adds when the display raised. *)
Definition logged (w : world) (message : str) : list action :=
  match display w with
  | shown => []
  | TimeoutError => [print message]
  end.

Definition busy_update (current_time : nat * nat) : str :=
  lit "Display busy, skipping update for " ++ format_02d (fst current_time)
  ++ lit ":" ++ format_02d (snd current_time).

Definition is_frame (a : action) : bool :=
  match a with
  | print _ => false
  | page_frame _ _ | quotes_frame _ => true
  end.

(** A session that is used where a reached state is needed: the display
    is ready, the wall clock reads 10:23 and the table has one row for
    every minute. *)
Definition sample_row : quote_row :=
  {| row_time := lit "10:23"; row_time_natural := lit "twenty three minutes past ten";
     row_quote := lit "The clock on his desk said the time was<br/>twenty three minutes past ten.";
     row_source := lit "a novel" |}.

Definition calm : world :=
  {| now := (10, 23); get_quote := fun _ _ => Some sample_row;
     display := shown |}.

(** The same surroundings with a display that does not answer in time. *)
Definition stalled : world :=
  {| now := (10, 23); get_quote := fun _ _ => Some sample_row;
     display := TimeoutError |}.

(** Keys typed one after the other in typewriter mode, none of them
    completing the command. *)
Inductive typing : TypewriterApp -> list str -> TypewriterApp -> Prop :=
| typing_done (self : TypewriterApp) :
    mode self = typewriter -> typing self [] self
| typing_key (w : world) (self : TypewriterApp) (key : str)
    (keys : list str) (self' : TypewriterApp) :
    mode self = typewriter ->
    mode (fst (_handle_keystroke w self key)) = typewriter ->
    typing (fst (_handle_keystroke w self key)) keys self' ->
    typing self (key :: keys) self'.

Definition typewriter_page (buffer page : str) : TypewriterApp :=
  {| mode := typewriter; command_buffer := buffer; text := page;
     y_offset := START_Y_OFFSET; clock_quotes := [] |}.

(** The eight keys of the scenario of the specification. *)
Definition hi_clock (w1 w2 w3 w4 w5 w6 w7 w8 : world) : list (world * event) :=
  [(w1, key_event (lit "h")); (w2, key_event (lit "i"));
   (w3, key_event (lit ";")); (w4, key_event (lit "c"));
   (w5, key_event (lit "l")); (w6, key_event (lit "o"));
   (w7, key_event (lit "c")); (w8, key_event (lit "k"))].

(** The state reached from start by a key that leaves clock mode and the
    five keys [;cloc]. *)
Definition almost_command : TypewriterApp :=
  run (fst (start calm))
    (map (fun key => (calm, key_event (lit key)))
       ["x"; ";"; "c"; "l"; "o"; "c"]%string).

(** The state after start and fourteen more minutes in clock mode. *)
Definition full_history : TypewriterApp :=
  run (fst (start calm))
    (map (fun minute => (calm, clock_update (10, minute))) (seq 24 14)).

(** The same surroundings with another answer of the display. *)
Definition with_display (w : world) (answer : handoff) : world :=
  {| now := now w; get_quote := get_quote w; display := answer |}.

Definition is_clock_update (e : event) : bool :=
  match e with
  | key_event _ => false
  | clock_update _ => true
  end.

(** The letter [a] typed [n] times. *)
Definition typing_a (n : nat) : list (world * event) :=
  repeat (calm, key_event (lit "a")) n.

(** What [n] renders take off the offset, one for each character added
    to a page of [length_of_text] characters. *)
Fixpoint climbed (length_of_text n : nat) : Z :=
  match n with
  | O => 0%Z
  | S n => (scroll (S length_of_text) + climbed (S length_of_text) n)%Z
  end.

(** The session that leaves the clock with one key and types [n] times
    the letter [a]. *)
Definition page_of_a (n : nat) : TypewriterApp :=
  run (fst (start calm)) ((calm, key_event (lit "a")) :: typing_a n).

(** What [re.sub(r'\s+', ' ', s)] does, read character by character:
    [in_run] says whether the character before was whitespace. *)
Fixpoint collapse (in_run : bool) (s : str) : str :=
  match s with
  | [] => []
  | c :: s' =>
      if isspace c then
        if in_run then collapse true s' else " "%char :: collapse true s'
      else c :: collapse false s'
  end.

(** Every whitespace character is a space, and none follows another;
    [after_space] says whether the character before was one. *)
Fixpoint single_spaced (after_space : bool) (s : str) : bool :=
  match s with
  | [] => true
  | c :: s' =>
      if isspace c
      then Ascii.eqb c " " && negb after_space && single_spaced true s'
      else single_spaced false s'
  end.

Definition is_decoded_key (e : event) : Prop :=
  exists (shift : bool) (keycode char : str),
    e = key_event char /\ _evdev_key_to_char shift keycode = Some char.

(** The minutes the updates of a queue are for, in order. *)
Fixpoint minutes (events : list event) : list (nat * nat) :=
  match events with
  | [] => []
  | clock_update current :: rest => current :: minutes rest
  | key_event _ :: rest => minutes rest
  end.

(** No minute comes twice in a row, nor first when it is [previous]. *)
Fixpoint changing (previous : option (nat * nat)) (l : list (nat * nat))
  : Prop :=
  match l with
  | [] => True
  | current :: rest =>
      previous <> Some current /\ changing (Some current) rest
  end.

Definition eligible (device : evdev.InputDevice) : bool :=
  named_typewriter device || named_keyboard device || has_letter_keys device.

Definition usb_keyboard : evdev.InputDevice :=
  {| evdev.name := lit "Generic USB Keyboard"; evdev.path := lit "/dev/input/event0";
     evdev.capabilities := [(1, [30; 44])] |}.

Definition virtual_typewriter : evdev.InputDevice :=
  {| evdev.name := lit "Virtual Typewriter"; evdev.path := lit "/dev/input/event3";
     evdev.capabilities := [] |}.

(** The row [_load_csv] stores for a row of the reader, if it stores
    one. *)
Definition kept (row : list str) : option quote_row :=
  match row with
  | time :: natural :: quote :: source :: _ =>
      if existsb (Ascii.eqb ":") (strip time) then
        Some {| row_time := strip time; row_time_natural := strip natural;
                row_quote := strip quote; row_source := strip source |}
      else None
  | _ => None
  end.

Fixpoint kept_rows (rows : list (list str)) : list quote_row :=
  match rows with
  | [] => []
  | row :: rest =>
      match kept row with
      | Some stored => stored :: kept_rows rest
      | None => kept_rows rest
      end
  end.

Definition at_time (time_code : str) (row : quote_row) : bool :=
  str_eqb time_code (row_time row).

(** The time code [get_quote] looks up. *)
Definition time_code_of (hour minute : nat) : str :=
  format_02d hour ++ lit ":" ++ format_02d minute.

(** Rows added behind those a key may have already. *)
Definition extend (old : option (list quote_row)) (new : list quote_row)
  : option (list quote_row) :=
  match new with
  | [] => old
  | _ => Some (match old with Some rows => rows | None => [] end ++ new)
  end.


Definition scroll_is_seven_per_thousand (n : nat) : bool :=
  (scroll n =? 7 * Z.of_nat n / 1000)%Z.

(** ** The wrapping rule *)





(** The characters that are not whitespace. *)
Definition visible (c : ascii) : bool := negb (isspace c).


(* ================================================================== *)
(** * Strings: suffixes and windows *)
(* ================================================================== *)

Section Strings.

Lemma str_eqb_eq (a b : str) : str_eqb a b = true <-> a = b.
Proof.
  revert b; induction a as [|x a IH]; intros [|y b]; simpl;
    try (split; [discriminate | discriminate]); [tauto|].
  rewrite andb_true_iff, Ascii.eqb_eq, IH.
  split; [intros [-> ->]; reflexivity | intros [= -> ->]; auto].
Qed.

Lemma str_eqb_refl (a : str) : str_eqb a a = true.
Proof. apply str_eqb_eq; reflexivity. Qed.

Lemma str_eqb_neq (a b : str) : str_eqb a b = false <-> a <> b.
Proof.
  rewrite <- str_eqb_eq. destruct (str_eqb a b); split; congruence.
Qed.

Lemma last_chars_all (n : nat) (s : str) :
  length s <= n -> last_chars n s = s.
Proof.
  intros H. unfold last_chars.
  replace (length s - n) with 0 by lia. reflexivity.
Qed.

Lemma last_chars_length (n : nat) (s : str) :
  length (last_chars n s) = Nat.min n (length s).
Proof. unfold last_chars. rewrite length_skipn. lia. Qed.

Lemma last_chars_split (n : nat) (s : str) :
  s = firstn (length s - n) s ++ last_chars n s.
Proof. unfold last_chars. symmetry. apply firstn_skipn. Qed.

Lemma last_chars_app_suffix (p suffix : str) :
  last_chars (length suffix) (p ++ suffix) = suffix.
Proof.
  unfold last_chars. rewrite length_app.
  replace (length p + length suffix - length suffix) with (length p + 0) by lia.
  rewrite skipn_app, Nat.add_0_r, skipn_all.
  replace (length p - length p) with 0 by lia. reflexivity.
Qed.

(** The window of a window: trimming is compatible with appending. *)
Lemma last_chars_window (n : nat) (a b : str) :
  last_chars n (last_chars n a ++ b) = last_chars n (a ++ b).
Proof.
  destruct (Nat.le_gt_cases (length a) n) as [H|H].
  - rewrite (last_chars_all n a H). reflexivity.
  - assert (L : length (last_chars n a) = n) by (rewrite last_chars_length; lia).
    unfold last_chars at 1. rewrite length_app, L, skipn_app, L.
    unfold last_chars. rewrite skipn_skipn, length_app, skipn_app.
    f_equal; f_equal; lia.
Qed.

Lemma last_chars_narrow (m n : nat) (s : str) :
  m <= n -> last_chars m (last_chars n s) = last_chars m s.
Proof.
  intros H. unfold last_chars at 1. rewrite last_chars_length.
  unfold last_chars. rewrite skipn_skipn. f_equal. lia.
Qed.

Lemma endswith_iff (s suffix : str) :
  endswith s suffix = true <-> exists p, s = p ++ suffix.
Proof.
  unfold endswith. rewrite str_eqb_eq. split.
  - intros H. exists (firstn (length s - length suffix) s).
    rewrite <- H at 2. apply last_chars_split.
  - intros [p ->]. apply last_chars_app_suffix.
Qed.

Lemma endswith_window (n : nat) (s suffix : str) :
  length suffix <= n ->
  endswith (last_chars n s) suffix = endswith s suffix.
Proof.
  intros H. unfold endswith. rewrite last_chars_narrow by exact H. reflexivity.
Qed.

(** A string of the length of the suffix ends with it only if it is the
    suffix. *)
Lemma endswith_same_length (s suffix : str) :
  length s <= length suffix ->
  endswith s suffix = true <-> s = suffix.
Proof.
  intros H. unfold endswith. rewrite last_chars_all by exact H.
  apply str_eqb_eq.
Qed.

Lemma endswith_shorter (s suffix : str) :
  length s < length suffix -> endswith s suffix = false.
Proof.
  intros H. apply not_true_is_false. rewrite endswith_iff. intros [p E].
  apply (f_equal (@length ascii)) in E. rewrite length_app in E. lia.
Qed.

End Strings.

(* ================================================================== *)
(** * The handlers, one equation each *)
(* ================================================================== *)

Section Handlers.

Variable w : world.

Lemma buffered_window (buffer key : str) :
  buffered buffer key = last_chars 6 (buffer ++ key).
Proof.
  unfold buffered. destruct (Nat.ltb_spec 6 (length (buffer ++ key))).
  - reflexivity.
  - symmetry. apply last_chars_all. assumption.
Qed.

Lemma update_clock_display_eq (self : TypewriterApp) (current_time : nat * nat) :
  _update_clock_display w self current_time =
  ({| mode := mode self; command_buffer := command_buffer self;
      text := text self; y_offset := y_offset self;
      clock_quotes :=
        appended (clock_quotes self) (display_text w current_time) |},
   quotes_frame
     (join [chr 10; chr 10; chr 10]
        (map (fun quote => textwrap.fill quote LINE_LENGTH)
           (appended (clock_quotes self) (display_text w current_time))))
   :: logged w (busy_update current_time)).
Proof.
  unfold _update_clock_display, _render_clock_display, logged, appended,
    busy_update.
  destruct current_time as [hour minute]; simpl.
  destruct (display w); reflexivity.
Qed.

Lemma process_typewriter_key_eq (self : TypewriterApp) (key : str) :
  _process_typewriter_key w self key =
  ({| mode := mode self; command_buffer := command_buffer self;
      text := match_key key (text self);
      y_offset := (y_offset self
                   - scroll (length (match_key key (text self))))%Z;
      clock_quotes := clock_quotes self |},
   page_frame
     (FIXED_X_OFFSET,
      (y_offset self - scroll (length (match_key key (text self))))%Z)
     (textwrap.fill (match_key key (text self)) LINE_LENGTH)
   :: logged w (lit "Display busy, keystroke buffered")).
Proof.
  unfold _process_typewriter_key, _render_typewriter, logged; simpl.
  destruct (display w); reflexivity.
Qed.

Lemma handle_keystroke_clock (self : TypewriterApp) (key : str) :
  mode self = clock ->
  _handle_keystroke w self key =
  ({| mode := typewriter; command_buffer := command_buffer self;
      text := []; y_offset := START_Y_OFFSET;
      clock_quotes := clock_quotes self |},
   [print (lit "Switched to typewriter mode. Type ';clock' to return to clock mode.")]).
Proof. intros H. unfold _handle_keystroke. rewrite H. reflexivity. Qed.

Lemma handle_keystroke_command (self : TypewriterApp) (key : str) :
  mode self = typewriter ->
  endswith (buffered (command_buffer self) key) (lit ";clock") = true ->
  _handle_keystroke w self key =
  ({| mode := clock; command_buffer := [];
      text := text self; y_offset := y_offset self;
      clock_quotes := [display_text w (now w)] |},
   print (lit "Entered clock mode. Press any key to return to typewriter mode.")
   :: quotes_frame (textwrap.fill (display_text w (now w)) LINE_LENGTH)
   :: logged w (busy_update (now w))).
Proof.
  intros H E. unfold _handle_keystroke. rewrite H.
  cbv zeta. cbn [command_buffer]. fold (buffered (command_buffer self) key).
  rewrite E. unfold _enter_clock_mode. rewrite update_clock_display_eq.
  reflexivity.
Qed.

Lemma handle_keystroke_typed (self : TypewriterApp) (key : str) :
  mode self = typewriter ->
  endswith (buffered (command_buffer self) key) (lit ";clock") = false ->
  _handle_keystroke w self key =
  ({| mode := typewriter;
      command_buffer := buffered (command_buffer self) key;
      text := match_key key (text self);
      y_offset := (y_offset self
                   - scroll (length (match_key key (text self))))%Z;
      clock_quotes := clock_quotes self |},
   page_frame
     (FIXED_X_OFFSET,
      (y_offset self - scroll (length (match_key key (text self))))%Z)
     (textwrap.fill (match_key key (text self)) LINE_LENGTH)
   :: logged w (lit "Display busy, keystroke buffered")).
Proof.
  intros H E. unfold _handle_keystroke. rewrite H.
  cbv zeta. cbn [command_buffer]. fold (buffered (command_buffer self) key).
  rewrite E, process_typewriter_key_eq.
  cbn [mode command_buffer text y_offset clock_quotes]. reflexivity.
Qed.

End Handlers.

(* ================================================================== *)
(** * Leaving clock mode *)
(* ================================================================== *)

(** The command buffer is empty whenever the clock is shown: it is empty
    at start and emptied on every entry to clock mode, and clock mode
    leaves it alone. *)
Lemma reachable_clock_buffer (self : TypewriterApp) :
  reachable self -> mode self = clock -> command_buffer self = [].
Proof.
  induction 1 as [w|w self e R IH].
  - unfold start. rewrite update_clock_display_eq. reflexivity.
  - destruct e as [key|current]; cbn [handle].
    + destruct (mode self) eqn:M.
      * rewrite handle_keystroke_clock by exact M. discriminate.
      * destruct (endswith (buffered (command_buffer self) key) (lit ";clock")) eqn:E.
        -- rewrite handle_keystroke_command by assumption. reflexivity.
        -- rewrite handle_keystroke_typed by assumption. discriminate.
    + rewrite update_clock_display_eq. exact IH.
Qed.

(** C1.  A key received in clock mode switches to typewriter mode with an
    empty page, the scroll offset at its start value and an empty command
    buffer; the key itself is not typed, and nothing is drawn: the only
    effect besides the switch is the console line. *)
Theorem clock_key_switches_to_typewriter
  (w : world) (self : TypewriterApp) (key : str) :
  reachable self ->
  mode self = clock ->
  mode (fst (_handle_keystroke w self key)) = typewriter
  /\ text (fst (_handle_keystroke w self key)) = []
  /\ y_offset (fst (_handle_keystroke w self key)) = START_Y_OFFSET
  /\ command_buffer (fst (_handle_keystroke w self key)) = []
  /\ snd (_handle_keystroke w self key) =
     [print (lit "Switched to typewriter mode. Type ';clock' to return to clock mode.")].
Proof.
  intros R M. rewrite handle_keystroke_clock by exact M.
  cbn [fst snd mode text y_offset command_buffer].
  repeat split. apply reachable_clock_buffer; assumption.
Qed.

Lemma clock_key_switches_to_typewriter_witness :
  reachable (fst (start calm))
  /\ mode (fst (start calm)) = clock
  /\ mode (fst (_handle_keystroke calm (fst (start calm)) (lit "a"))) = typewriter
  /\ text (fst (_handle_keystroke calm (fst (start calm)) (lit "a"))) = []
  /\ y_offset (fst (_handle_keystroke calm (fst (start calm)) (lit "a")))
     = START_Y_OFFSET
  /\ command_buffer (fst (_handle_keystroke calm (fst (start calm)) (lit "a"))) = []
  /\ snd (_handle_keystroke calm (fst (start calm)) (lit "a")) =
     [print (lit "Switched to typewriter mode. Type ';clock' to return to clock mode.")].
Proof.
  split; [apply reachable_start|].
  split; [reflexivity|].
  apply (clock_key_switches_to_typewriter calm (fst (start calm)) (lit "a")
           (reachable_start calm)).
  reflexivity.
Defined.

(* ================================================================== *)
(** * The [;clock] command *)
(* ================================================================== *)

Lemma command_mode (w : world) (self : TypewriterApp) (key : str) :
  mode self = typewriter ->
  mode (fst (_handle_keystroke w self key)) = clock <->
  endswith (buffered (command_buffer self) key) (lit ";clock") = true.
Proof.
  intros M.
  destruct (endswith (buffered (command_buffer self) key) (lit ";clock")) eqn:E.
  - rewrite handle_keystroke_command by assumption. cbn. tauto.
  - rewrite handle_keystroke_typed by assumption. cbn.
    split; discriminate.
Qed.

Lemma typing_mode (self : TypewriterApp) (keys : list str)
  (self' : TypewriterApp) :
  typing self keys self' -> mode self' = typewriter.
Proof. induction 1; assumption. Qed.

(** The buffer holds the last six characters of what was typed. *)
Lemma typing_window (self : TypewriterApp) (keys : list str)
  (self' : TypewriterApp) :
  typing self keys self' ->
  last_chars 6 (command_buffer self')
  = last_chars 6 (command_buffer self ++ concat keys).
Proof.
  induction 1 as [self M|w self key keys self' M M' T IH].
  - simpl. rewrite app_nil_r. reflexivity.
  - rewrite IH. clear IH T.
    destruct (endswith (buffered (command_buffer self) key) (lit ";clock")) eqn:E.
    + apply (command_mode w self key M) in E. congruence.
    + rewrite handle_keystroke_typed by assumption.
      cbn [fst command_buffer concat]. rewrite buffered_window.
      rewrite last_chars_window, app_assoc. reflexivity.
Qed.

(** C2.  After keys typed in typewriter mode, the next key fires the
    command (the machine enters clock mode) exactly when the buffer, with
    the key appended and cut to its last six characters, ends with
    [;clock]; the buffer then is [;clock] itself, so a buffer shorter than
    six characters never fires; and this is the case exactly when
    everything typed so far ends with [;clock]. *)
Theorem command_fires_iff_suffix
  (w : world) (self : TypewriterApp) (keys : list str)
  (self' : TypewriterApp) (key : str) :
  typing self keys self' ->
  (mode (fst (_handle_keystroke w self' key)) = clock <->
   endswith (buffered (command_buffer self') key) (lit ";clock") = true)
  /\ (mode (fst (_handle_keystroke w self' key)) = clock <->
      buffered (command_buffer self') key = lit ";clock")
  /\ (mode (fst (_handle_keystroke w self' key)) = clock <->
      endswith (command_buffer self ++ concat keys ++ key) (lit ";clock") = true)
  /\ (length (buffered (command_buffer self') key) < 6 ->
      mode (fst (_handle_keystroke w self' key)) <> clock).
Proof.
  intros T. pose proof (typing_mode self keys self' T) as M.
  pose proof (command_mode w self' key M) as F.
  assert (L : length (buffered (command_buffer self') key) <= 6).
  { rewrite buffered_window, last_chars_length. lia. }
  split; [exact F|]. split; [|split].
  - rewrite F. apply endswith_same_length. exact L.
  - rewrite F, buffered_window.
    rewrite endswith_window by (simpl; lia).
    rewrite <- (endswith_window 6 (command_buffer self' ++ key)) by (simpl; lia).
    rewrite <- last_chars_window, (typing_window self keys self' T), last_chars_window.
    rewrite endswith_window by (simpl; lia).
    rewrite <- app_assoc. reflexivity.
  - intros S. rewrite F. rewrite endswith_shorter; [discriminate|exact S].
Qed.

Lemma command_fires_iff_suffix_witness :
  typing (typewriter_page [] []) [lit ";"; lit ";"; lit "c"; lit "l"; lit "o"; lit "c"]
    (run (typewriter_page [] [])
       (map (fun key => (calm, key_event (lit key)))
          [";"; ";"; "c"; "l"; "o"; "c"]%string))
  /\ mode (fst (_handle_keystroke calm
                  (run (typewriter_page [] [])
                     (map (fun key => (calm, key_event (lit key)))
                        [";"; ";"; "c"; "l"; "o"; "c"]%string))
                  (lit "k"))) = clock.
Proof.
  assert (T : typing (typewriter_page [] [])
                [lit ";"; lit ";"; lit "c"; lit "l"; lit "o"; lit "c"]
                (run (typewriter_page [] [])
                   (map (fun key => (calm, key_event (lit key)))
                      [";"; ";"; "c"; "l"; "o"; "c"]%string))).
  { cbn [map run handle].
    repeat (apply (typing_key calm);
            [reflexivity | vm_compute; reflexivity | ]).
    apply typing_done. vm_compute. reflexivity. }
  split; [exact T|].
  apply (proj1 (proj2 (proj2 (command_fires_iff_suffix calm _ _ _ (lit "k") T)))).
  vm_compute. reflexivity.
Defined.

Lemma run_cons (self : TypewriterApp) (w : world) (e : event)
  (rest : list (world * event)) :
  run self ((w, e) :: rest) = run (fst (handle w self e)) rest.
Proof. reflexivity. Qed.

(** A key that is typed leaves a state that differs from a typewriter
    state with the new buffer in its page and offset only. *)
Lemma run_typed_key (w : world) (self : TypewriterApp) (key : str)
  (rest : list (world * event)) :
  mode self = typewriter ->
  endswith (buffered (command_buffer self) key) (lit ";clock") = false ->
  exists (page : str) (offset : Z),
    run self ((w, key_event key) :: rest)
    = run {| mode := typewriter;
             command_buffer := buffered (command_buffer self) key;
             text := page; y_offset := offset;
             clock_quotes := clock_quotes self |} rest.
Proof.
  intros M E. rewrite run_cons. cbn [handle].
  rewrite handle_keystroke_typed by assumption. cbn [fst].
  eexists. eexists. reflexivity.
Qed.

Lemma display_text_found (w : world) (current : nat * nat) (row : quote_row) :
  get_quote w (fst current) (snd current) = Some row ->
  display_text w current = clean_quote_text (row_quote row).
Proof.
  destruct current as [hour minute]. cbn [fst snd]. intros H.
  unfold display_text. rewrite H. reflexivity.
Qed.

Lemma display_text_missing (w : world) (current : nat * nat) :
  get_quote w (fst current) (snd current) = None ->
  display_text w current
  = lit "No quote found for " ++ format_02d (fst current) ++ lit ":"
    ++ format_02d (snd current).
Proof.
  destruct current as [hour minute]. cbn [fst snd]. intros H.
  unfold display_text. rewrite H. reflexivity.
Qed.

(** C3.  When the buffer ends with [;clock] in typewriter mode the machine
    enters clock mode, the quote history holds the quote of the current
    minute and nothing else, the buffer is empty, and what is drawn is the
    frame of that quote: no page frame is drawn, and the page and its
    offset are as they were.  The quote of the current minute is what
    [get_quote] answers for the hour and the minute of [datetime.now()],
    cleaned by [clean_quote_text]; when it answers [None] the entry is
    the line [No quote found for HH:MM] of that hour and minute.  In
    particular, typing [hi;clock] from typewriter mode with an empty
    buffer ends in clock mode with that one entry and an empty buffer,
    whatever the surroundings answer. *)
Theorem clock_command_enters_clock_mode :
  (forall (w : world) (self : TypewriterApp) (key : str),
      mode self = typewriter ->
      endswith (buffered (command_buffer self) key) (lit ";clock") = true ->
      mode (fst (_handle_keystroke w self key)) = clock
      /\ clock_quotes (fst (_handle_keystroke w self key))
         = [display_text w (now w)]
      /\ command_buffer (fst (_handle_keystroke w self key)) = []
      /\ text (fst (_handle_keystroke w self key)) = text self
      /\ y_offset (fst (_handle_keystroke w self key)) = y_offset self
      /\ filter is_frame (snd (_handle_keystroke w self key))
         = [quotes_frame (textwrap.fill (display_text w (now w)) LINE_LENGTH)]
      /\ (forall row : quote_row,
          get_quote w (fst (now w)) (snd (now w)) = Some row ->
          clock_quotes (fst (_handle_keystroke w self key))
          = [clean_quote_text (row_quote row)]
          /\ filter is_frame (snd (_handle_keystroke w self key))
             = [quotes_frame
                  (textwrap.fill (clean_quote_text (row_quote row))
                     LINE_LENGTH)])
      /\ (get_quote w (fst (now w)) (snd (now w)) = None ->
          clock_quotes (fst (_handle_keystroke w self key))
          = [lit "No quote found for " ++ format_02d (fst (now w))
             ++ lit ":" ++ format_02d (snd (now w))]
          /\ filter is_frame (snd (_handle_keystroke w self key))
             = [quotes_frame
                  (textwrap.fill
                     (lit "No quote found for " ++ format_02d (fst (now w))
                      ++ lit ":" ++ format_02d (snd (now w)))
                     LINE_LENGTH)]))
  /\ (forall (w1 w2 w3 w4 w5 w6 w7 w8 : world) (self : TypewriterApp),
         mode self = typewriter ->
         command_buffer self = [] ->
         mode (run self (hi_clock w1 w2 w3 w4 w5 w6 w7 w8)) = clock
         /\ clock_quotes (run self (hi_clock w1 w2 w3 w4 w5 w6 w7 w8))
            = [display_text w8 (now w8)]
         /\ command_buffer (run self (hi_clock w1 w2 w3 w4 w5 w6 w7 w8)) = []
         /\ (forall row : quote_row,
             get_quote w8 (fst (now w8)) (snd (now w8)) = Some row ->
             clock_quotes (run self (hi_clock w1 w2 w3 w4 w5 w6 w7 w8))
             = [clean_quote_text (row_quote row)])
         /\ (get_quote w8 (fst (now w8)) (snd (now w8)) = None ->
             clock_quotes (run self (hi_clock w1 w2 w3 w4 w5 w6 w7 w8))
             = [lit "No quote found for " ++ format_02d (fst (now w8))
                ++ lit ":" ++ format_02d (snd (now w8))])).
Proof.
  split.
  - intros w self key M E. rewrite handle_keystroke_command by assumption.
    cbn [fst snd mode clock_quotes command_buffer text y_offset].
    assert (F : filter is_frame
                  (print (lit "Entered clock mode. Press any key to return to typewriter mode.")
                   :: quotes_frame
                        (textwrap.fill (display_text w (now w)) LINE_LENGTH)
                   :: logged w (busy_update (now w)))
                = [quotes_frame
                     (textwrap.fill (display_text w (now w)) LINE_LENGTH)]).
    { unfold logged. destruct (display w); reflexivity. }
    rewrite F. do 6 (split; [reflexivity|]). split.
    + intros row H. rewrite (display_text_found w (now w) row H).
      split; reflexivity.
    + intros H. rewrite (display_text_missing w (now w) H).
      split; reflexivity.
  - intros w1 w2 w3 w4 w5 w6 w7 w8 [m b t y q] M B. simpl in M, B. subst m b.
    unfold hi_clock.
    do 7 (match goal with
          | |- context [run ?s ((?w, key_event ?k) :: ?rest)] =>
              destruct (run_typed_key w s k rest eq_refl eq_refl)
                as (? & ? & E); rewrite E; clear E
          end).
    rewrite run_cons; cbn [handle run].
    rewrite handle_keystroke_command by reflexivity.
    cbn [fst mode clock_quotes command_buffer].
    do 3 (split; [reflexivity|]). split.
    + intros row H. rewrite (display_text_found w8 (now w8) row H).
      reflexivity.
    + intros H. rewrite (display_text_missing w8 (now w8) H). reflexivity.
Qed.

Lemma clock_command_enters_clock_mode_witness :
  mode (run (typewriter_page [] [])
          (hi_clock calm calm calm calm calm calm calm stalled))
  = clock
  /\ clock_quotes (run (typewriter_page [] [])
                     (hi_clock calm calm calm calm calm calm calm stalled))
     = [lit "The clock on his desk said the time was twenty three minutes past ten."]
  /\ command_buffer (run (typewriter_page [] [])
                       (hi_clock calm calm calm calm calm calm calm stalled))
     = [].
Proof.
  pose proof (proj2 clock_command_enters_clock_mode
                calm calm calm calm calm calm calm stalled
                (typewriter_page [] []) eq_refl eq_refl) as H.
  split; [exact (proj1 H)|]. split; [|exact (proj1 (proj2 (proj2 H)))].
  rewrite (proj1 (proj2 (proj2 (proj2 H))) sample_row eq_refl).
  vm_compute. reflexivity.
Defined.

(* ================================================================== *)
(** * Typing *)
(* ================================================================== *)

Lemma drop_last_length (s : str) : length (drop_last s) = length s - 1.
Proof.
  unfold drop_last. induction s as [|c [|d s] IH]; simpl in *; try reflexivity.
  rewrite IH. lia.
Qed.

Lemma almost_command_reachable : reachable almost_command.
Proof.
  unfold almost_command. cbn [map run].
  repeat apply reachable_handle. apply reachable_start.
Qed.

(** C7, as stated, fails: the key that completes [;clock] is handled in
    typewriter mode, yet it is neither typed on the page nor kept in the
    buffer. *)
Lemma command_key_is_not_typed :
  reachable almost_command
  /\ mode almost_command = typewriter
  /\ text almost_command = lit ";cloc"
  /\ text (fst (_handle_keystroke calm almost_command (lit "k"))) = lit ";cloc"
  /\ text (fst (_handle_keystroke calm almost_command (lit "k")))
     <> match_key (lit "k") (text almost_command)
  /\ command_buffer (fst (_handle_keystroke calm almost_command (lit "k")))
     <> buffered (command_buffer almost_command) (lit "k").
Proof.
  split; [exact almost_command_reachable|].
  vm_compute. repeat split; discriminate.
Qed.

(** C7, amended.  A key handled in typewriter mode is appended to the
    buffer, which keeps its last six characters.  When these do not end
    with [;clock], the buffer stays so and the key changes the page by
    its rule: [space] appends one space, [backspace] removes the last
    character if there is one, [enter] appends a line feed between two
    spaces, and any other key is appended as it is.  When they end with
    [;clock], the key is not typed: the page and its offset stay as they
    were and no page is drawn, the buffer is emptied, and the machine is
    in clock mode. *)
Theorem typed_key_updates_buffer_and_page
  (w : world) (self : TypewriterApp) (key : str) :
  mode self = typewriter ->
  (endswith (buffered (command_buffer self) key) (lit ";clock") = false ->
   mode (fst (_handle_keystroke w self key)) = typewriter
   /\ command_buffer (fst (_handle_keystroke w self key))
      = last_chars 6 (command_buffer self ++ key)
   /\ length (command_buffer (fst (_handle_keystroke w self key))) <= 6
   /\ (exists evicted,
         command_buffer self ++ key
         = evicted ++ command_buffer (fst (_handle_keystroke w self key)))
   /\ (key = lit "space" ->
       text (fst (_handle_keystroke w self key)) = text self ++ lit " ")
   /\ (key = lit "backspace" ->
       text (fst (_handle_keystroke w self key)) = removelast (text self)
       /\ length (text (fst (_handle_keystroke w self key)))
          = length (text self) - 1)
   /\ (key = lit "enter" ->
       text (fst (_handle_keystroke w self key))
       = text self ++ [" "; chr 10; " "]%char)
   /\ (key <> lit "space" -> key <> lit "backspace" -> key <> lit "enter" ->
       text (fst (_handle_keystroke w self key)) = text self ++ key))
  /\ (endswith (buffered (command_buffer self) key) (lit ";clock") = true ->
      last_chars 6 (command_buffer self ++ key) = lit ";clock"
      /\ mode (fst (_handle_keystroke w self key)) = clock
      /\ command_buffer (fst (_handle_keystroke w self key)) = []
      /\ text (fst (_handle_keystroke w self key)) = text self
      /\ y_offset (fst (_handle_keystroke w self key)) = y_offset self
      /\ (forall (draw_point : Z * Z) (lines : str),
          ~ In (page_frame draw_point lines)
              (snd (_handle_keystroke w self key)))
      /\ (key <> [] -> key <> lit "space" -> key <> lit "backspace" ->
          key <> lit "enter" ->
          text (fst (_handle_keystroke w self key))
          <> match_key key (text self))).
Proof.
  intros M. split; intros E.
  - rewrite handle_keystroke_typed by assumption.
    cbn [fst mode command_buffer text]. rewrite buffered_window.
    split; [reflexivity|]. split; [reflexivity|].
    split; [rewrite last_chars_length; lia|].
    split.
    { exists (firstn (length (command_buffer self ++ key) - 6)
                (command_buffer self ++ key)).
      apply last_chars_split. }
    split; [intros ->; reflexivity|].
    split; [intros ->; split; [reflexivity|apply drop_last_length]|].
    split; [intros ->; reflexivity|].
    intros N1 N2 N3. unfold match_key.
    apply str_eqb_neq in N1, N2, N3. rewrite N1, N2, N3. reflexivity.
  - rewrite handle_keystroke_command by assumption.
    cbn [fst snd mode command_buffer text y_offset].
    split.
    { rewrite <- buffered_window. unfold endswith in E.
      rewrite last_chars_all in E
        by (rewrite buffered_window, last_chars_length;
            change (length (lit ";clock")) with 6; lia).
      apply str_eqb_eq. exact E. }
    repeat split.
    + intros draw_point lines [H|[H|H]]; try discriminate H.
      unfold logged in H. destruct (display w); [contradiction|].
      destruct H as [H|H]; [discriminate H|contradiction].
    + intros N0 N1 N2 N3 H. unfold match_key in H.
      apply str_eqb_neq in N1, N2, N3. rewrite N1, N2, N3 in H.
      apply N0. rewrite <- (app_nil_r (text self)) in H at 1.
      apply app_inv_head in H. symmetry. exact H.
Qed.

Lemma typed_key_updates_buffer_and_page_witness :
  mode (typewriter_page (lit ";clo") (lit "ab")) = typewriter
  /\ endswith (buffered (lit ";clo") (lit "backspace")) (lit ";clock") = false
  /\ command_buffer (fst (_handle_keystroke calm
                            (typewriter_page (lit ";clo") (lit "ab"))
                            (lit "backspace"))) = lit "kspace"
  /\ text (fst (_handle_keystroke calm
                  (typewriter_page (lit ";clo") (lit "ab"))
                  (lit "backspace"))) = lit "a"
  /\ endswith (buffered (lit ";cloc") (lit "k")) (lit ";clock") = true
  /\ command_buffer (fst (_handle_keystroke calm
                            (typewriter_page (lit ";cloc") (lit "ab;cloc"))
                            (lit "k"))) = []
  /\ text (fst (_handle_keystroke calm
                  (typewriter_page (lit ";cloc") (lit "ab;cloc"))
                  (lit "k"))) = lit "ab;cloc".
Proof.
  split; [reflexivity|]. split; [reflexivity|].
  pose proof (proj1 (typed_key_updates_buffer_and_page calm
                       (typewriter_page (lit ";clo") (lit "ab"))
                       (lit "backspace") eq_refl) eq_refl) as H.
  pose proof (proj2 (typed_key_updates_buffer_and_page calm
                       (typewriter_page (lit ";cloc") (lit "ab;cloc"))
                       (lit "k") eq_refl) eq_refl) as G.
  split; [exact (proj1 (proj2 H))|].
  split; [exact (proj1 (proj1 (proj2 (proj2 (proj2 (proj2 (proj2 H)))))
                          eq_refl))|].
  split; [reflexivity|].
  split; [exact (proj1 (proj2 (proj2 G)))|].
  exact (proj1 (proj2 (proj2 (proj2 G)))).
Defined.

Lemma last_chars_app_long (n : nat) (a b : str) :
  n <= length b -> last_chars n (a ++ b) = last_chars n b.
Proof.
  intros H. unfold last_chars. rewrite length_app, skipn_app.
  rewrite skipn_all2 by lia. simpl. f_equal. lia.
Qed.

Lemma last_chars_app_short (n : nat) (a b : str) :
  length b <= n -> last_chars n (a ++ b) = last_chars (n - length b) a ++ b.
Proof.
  intros H. unfold last_chars. rewrite length_app, skipn_app.
  replace (length a + length b - n - length a) with 0 by lia.
  simpl. f_equal. f_equal. lia.
Qed.

(** What is appended decides alone whether the command fires when it is
    as long as the command. *)
Lemma endswith_app_long (a b suffix : str) :
  length suffix <= length b -> endswith (a ++ b) suffix = endswith b suffix.
Proof.
  intros H. unfold endswith. rewrite last_chars_app_long by exact H.
  reflexivity.
Qed.

Lemma buffered_endswith (buffer key : str) :
  endswith (buffered buffer key) (lit ";clock")
  = endswith (buffer ++ key) (lit ";clock").
Proof. rewrite buffered_window. apply endswith_window. simpl. lia. Qed.

(** A key of five characters other than [clock] never completes the
    command. *)
Lemma five_characters_quiet (buffer key : str) :
  length key = 5 -> key <> lit "clock" ->
  endswith (buffered buffer key) (lit ";clock") = false.
Proof.
  intros L N. rewrite buffered_endswith. apply not_true_is_false. intros E.
  apply endswith_iff in E. destruct E as [p E]. apply N.
  apply (f_equal (last_chars 5)) in E.
  rewrite !last_chars_app_long in E by (simpl; lia).
  rewrite last_chars_all in E by lia. exact E.
Qed.

(** C10.  The three control keys reach the handler as the token names
    [space], [backspace] and [enter], of 5, 9 and 5 characters, and in
    typewriter mode the name is what is appended to the buffer before it
    is cut to six characters: after [backspace] the buffer is [kspace]
    whatever it held, so nothing is removed from it and all of a partly
    typed command is evicted; after [space] or [enter] one earlier
    character at most is left. *)
Theorem control_keys_append_their_names
  (w : world) (self : TypewriterApp) (shift_pressed : bool) :
  mode self = typewriter ->
  _evdev_key_to_char shift_pressed (lit "KEY_SPACE") = Some (lit "space")
  /\ _evdev_key_to_char shift_pressed (lit "KEY_BACKSPACE")
     = Some (lit "backspace")
  /\ _evdev_key_to_char shift_pressed (lit "KEY_ENTER") = Some (lit "enter")
  /\ length (lit "space") = 5 /\ length (lit "backspace") = 9
  /\ length (lit "enter") = 5
  /\ command_buffer (fst (_handle_keystroke w self (lit "backspace")))
     = lit "kspace"
  /\ command_buffer (fst (_handle_keystroke w self (lit "space")))
     = last_chars 1 (command_buffer self) ++ lit "space"
  /\ command_buffer (fst (_handle_keystroke w self (lit "enter")))
     = last_chars 1 (command_buffer self) ++ lit "enter".
Proof.
  intros M.
  assert (Q1 : endswith (buffered (command_buffer self) (lit "backspace"))
                 (lit ";clock") = false).
  { rewrite buffered_endswith, endswith_app_long by (simpl; lia). reflexivity. }
  assert (Q2 : endswith (buffered (command_buffer self) (lit "space"))
                 (lit ";clock") = false).
  { apply five_characters_quiet; [reflexivity|discriminate]. }
  assert (Q3 : endswith (buffered (command_buffer self) (lit "enter"))
                 (lit ";clock") = false).
  { apply five_characters_quiet; [reflexivity|discriminate]. }
  rewrite !handle_keystroke_typed by assumption.
  cbn [fst command_buffer]. rewrite !buffered_window.
  repeat split.
  - rewrite last_chars_app_long by (simpl; lia). reflexivity.
  - apply (last_chars_app_short 6 (command_buffer self) (lit "space")).
    simpl; lia.
  - apply (last_chars_app_short 6 (command_buffer self) (lit "enter")).
    simpl; lia.
Qed.

Lemma control_keys_append_their_names_witness :
  mode (typewriter_page (lit ";cloc") (lit ";cloc")) = typewriter
  /\ command_buffer (fst (_handle_keystroke calm
                            (typewriter_page (lit ";cloc") (lit ";cloc"))
                            (lit "backspace"))) = lit "kspace".
Proof.
  split; [reflexivity|].
  exact (proj1 (proj2 (proj2 (proj2 (proj2 (proj2 (proj2
           (control_keys_append_their_names calm
              (typewriter_page (lit ";cloc") (lit ";cloc")) false
              eq_refl)))))))).
Defined.

(* ================================================================== *)
(** * The history of quotes *)
(* ================================================================== *)

Lemma appended_length (quotes : list str) (quote : str) :
  length quotes <= 15 -> length (appended quotes quote) <= 15.
Proof.
  intros H. unfold appended.
  destruct (Nat.ltb_spec 15 (length (quotes ++ [quote]))) as [L|L].
  - rewrite length_tl, length_app. simpl. lia.
  - exact L.
Qed.

Lemma appended_full (quotes : list str) (quote : str) :
  length quotes = 15 -> appended quotes quote = tl quotes ++ [quote].
Proof.
  intros H. unfold appended. rewrite length_app. simpl length.
  replace (15 <? length quotes + 1) with true
    by (symmetry; apply Nat.ltb_lt; lia).
  destruct quotes; [discriminate|reflexivity].
Qed.

Lemma appended_room (quotes : list str) (quote : str) :
  length quotes < 15 -> appended quotes quote = quotes ++ [quote].
Proof.
  intros H. unfold appended. rewrite length_app. simpl length.
  replace (15 <? length quotes + 1) with false
    by (symmetry; apply Nat.ltb_ge; lia).
  reflexivity.
Qed.

(** Every handler keeps the bound. *)
Lemma handle_keeps_bound (w : world) (self : TypewriterApp) (e : event) :
  length (clock_quotes self) <= 15 ->
  length (clock_quotes (fst (handle w self e))) <= 15.
Proof.
  intros H. destruct e as [key|current]; cbn [handle].
  - destruct (mode self) eqn:M.
    + rewrite handle_keystroke_clock by exact M. exact H.
    + destruct (endswith (buffered (command_buffer self) key) (lit ";clock"))
        eqn:E.
      * rewrite handle_keystroke_command by assumption. simpl. lia.
      * rewrite handle_keystroke_typed by assumption. exact H.
  - rewrite update_clock_display_eq. apply appended_length, H.
Qed.

Lemma reachable_bound (self : TypewriterApp) :
  reachable self -> length (clock_quotes self) <= 15.
Proof.
  induction 1 as [w|w self e R IH].
  - unfold start. rewrite update_clock_display_eq. apply appended_length.
    simpl. lia.
  - apply handle_keeps_bound, IH.
Qed.

Lemma reachable_run (self : TypewriterApp) (session : list (world * event)) :
  reachable self -> reachable (run self session).
Proof.
  revert self. induction session as [|[w e] rest IH]; intros self R.
  - exact R.
  - cbn [run]. apply IH, reachable_handle, R.
Qed.

(** C8.  In every state the application reaches the history holds at
    most 15 quotes, and it still does after any further event.  A quote
    arriving when the history holds 15 evicts the oldest and goes last,
    the others keep their order; with fewer the quote is added at the
    end. *)
Theorem quote_history_at_most_15
  (w : world) (self : TypewriterApp) (e : event) (current : nat * nat) :
  reachable self ->
  length (clock_quotes self) <= 15
  /\ length (clock_quotes (fst (handle w self e))) <= 15
  /\ (length (clock_quotes self) = 15 ->
      clock_quotes (fst (_update_clock_display w self current))
      = tl (clock_quotes self) ++ [display_text w current])
  /\ (length (clock_quotes self) < 15 ->
      clock_quotes (fst (_update_clock_display w self current))
      = clock_quotes self ++ [display_text w current]).
Proof.
  intros R. pose proof (reachable_bound self R) as B.
  split; [exact B|]. split; [apply handle_keeps_bound, B|].
  rewrite update_clock_display_eq. cbn [fst clock_quotes].
  split; intros L; [apply appended_full|apply appended_room]; exact L.
Qed.

Lemma quote_history_at_most_15_witness :
  reachable full_history
  /\ length (clock_quotes full_history) = 15
  /\ clock_quotes (fst (_update_clock_display calm full_history (10, 38)))
     = tl (clock_quotes full_history) ++ [display_text calm (10, 38)].
Proof.
  assert (R : reachable full_history)
    by (apply reachable_run, reachable_start).
  assert (L : length (clock_quotes full_history) = 15)
    by (vm_compute; reflexivity).
  split; [exact R|]. split; [exact L|].
  exact (proj1 (proj2 (proj2
           (quote_history_at_most_15 calm full_history (key_event (lit "a"))
              (10, 38) R))) L).
Defined.

(* ================================================================== *)
(** * A display that does not answer *)
(* ================================================================== *)

Lemma display_text_with_display (w : world) (answer : handoff)
  (current : nat * nat) :
  display_text (with_display w answer) current = display_text w current.
Proof. destruct current. reflexivity. Qed.

(** The state a handler leaves does not depend on the display. *)
Lemma handle_state_with_display (w : world) (answer : handoff)
  (self : TypewriterApp) (e : event) :
  fst (handle (with_display w answer) self e) = fst (handle w self e).
Proof.
  destruct e as [key|current]; cbn [handle].
  - destruct (mode self) eqn:M.
    + rewrite !handle_keystroke_clock by exact M. reflexivity.
    + destruct (endswith (buffered (command_buffer self) key) (lit ";clock"))
        eqn:E.
      * rewrite !handle_keystroke_command by assumption.
        cbn [fst]. rewrite display_text_with_display. reflexivity.
      * rewrite !handle_keystroke_typed by assumption. reflexivity.
  - rewrite !update_clock_display_eq. cbn [fst].
    rewrite display_text_with_display. reflexivity.
Qed.

(** A clock update hands a frame to the display in either mode, and so
    does a key in typewriter mode. *)
Lemma handle_renders (w : world) (self : TypewriterApp) (e : event) :
  mode self = typewriter \/ is_clock_update e = true ->
  existsb is_frame (snd (handle w self e)) = true.
Proof.
  intros H. destruct e as [key|current]; cbn [handle].
  - destruct H as [M|H]; [|discriminate].
    destruct (endswith (buffered (command_buffer self) key) (lit ";clock"))
      eqn:E.
    + rewrite handle_keystroke_command by assumption. reflexivity.
    + rewrite handle_keystroke_typed by assumption. reflexivity.
  - rewrite update_clock_display_eq. reflexivity.
Qed.

(** A key in clock mode hands nothing to the display. *)
Lemma clock_key_renders_nothing (w : world) (self : TypewriterApp)
  (key : str) :
  mode self = clock ->
  existsb is_frame (snd (_handle_keystroke w self key)) = false.
Proof. intros M. rewrite handle_keystroke_clock by exact M. reflexivity. Qed.

(** The first frame is refused, the refusal is logged, and the key that
    follows is handled without a frame being drawn. *)
Lemma key_after_refused_clock_frame_renders_nothing :
  In (print (lit "Display busy, skipping update for 10:23"))
    (snd (start stalled))
  /\ existsb is_frame
       (snd (handle calm (fst (start stalled)) (key_event (lit "a"))))
     = false.
Proof. split; [right; left|]; vm_compute; reflexivity. Qed.

(** C9, amended.  When the display raises [TimeoutError] the handler
    leaves the state it would have left had the frame been shown, and
    adds one line to the console after the frame: for a typed key the
    page holds the key, the buffer its window, the history and the mode
    are as before; for a clock update the history holds the new quote,
    the page, the buffer and the mode are as before.  A clock update
    that follows, or a key that follows in typewriter mode, hands a
    frame to the display again; a key that follows in clock mode only
    leaves clock mode and draws nothing. *)
Theorem refused_frame_is_logged_and_state_kept
  (w : world) (self : TypewriterApp) (e : event) (key : str)
  (current : nat * nat) :
  display w = TimeoutError ->
  fst (handle w self e) = fst (handle (with_display w shown) self e)
  /\ (mode self = typewriter ->
      endswith (buffered (command_buffer self) key) (lit ";clock") = false ->
      snd (_handle_keystroke w self key)
      = snd (_handle_keystroke (with_display w shown) self key)
        ++ [print (lit "Display busy, keystroke buffered")]
      /\ text (fst (_handle_keystroke w self key))
         = match_key key (text self)
      /\ command_buffer (fst (_handle_keystroke w self key))
         = buffered (command_buffer self) key
      /\ clock_quotes (fst (_handle_keystroke w self key))
         = clock_quotes self
      /\ mode (fst (_handle_keystroke w self key)) = typewriter)
  /\ (snd (_update_clock_display w self current)
      = snd (_update_clock_display (with_display w shown) self current)
        ++ [print (busy_update current)]
      /\ clock_quotes (fst (_update_clock_display w self current))
         = appended (clock_quotes self) (display_text w current)
      /\ text (fst (_update_clock_display w self current)) = text self
      /\ command_buffer (fst (_update_clock_display w self current))
         = command_buffer self
      /\ mode (fst (_update_clock_display w self current)) = mode self)
  /\ (forall (w' : world) (e' : event),
      mode (fst (handle w self e)) = typewriter \/ is_clock_update e' = true ->
      existsb is_frame (snd (handle w' (fst (handle w self e)) e')) = true)
  /\ (forall (w' : world) (key' : str),
      mode (fst (handle w self e)) = clock ->
      existsb is_frame
        (snd (handle w' (fst (handle w self e)) (key_event key'))) = false).
Proof.
  intros D.
  split; [symmetry; apply handle_state_with_display|].
  split; [intros M E|split; [|split]].
  - rewrite !handle_keystroke_typed by assumption.
    unfold logged. rewrite D. repeat split.
  - rewrite !update_clock_display_eq. unfold logged. rewrite D.
    cbn [fst snd clock_quotes text command_buffer mode with_display display].
    rewrite display_text_with_display. repeat split.
  - intros w' e' H. apply handle_renders, H.
  - intros w' key' M. cbn [handle]. apply clock_key_renders_nothing, M.
Qed.

Lemma refused_frame_is_logged_and_state_kept_witness :
  display stalled = TimeoutError
  /\ fst (handle stalled (typewriter_page (lit "h") (lit "h"))
            (key_event (lit "i")))
     = fst (handle (with_display stalled shown)
              (typewriter_page (lit "h") (lit "h")) (key_event (lit "i"))).
Proof.
  split; [reflexivity|].
  exact (proj1 (refused_frame_is_logged_and_state_kept stalled
                  (typewriter_page (lit "h") (lit "h")) (key_event (lit "i"))
                  (lit "i") (10, 23) eq_refl)).
Defined.

(* ================================================================== *)
(** * The climb of the page *)
(* ================================================================== *)

(** Rounding keeps the sign it is given. *)
Lemma binary_round_aux_sign (sx : bool) (mx ex : Z) (lx : location) :
  match binary_round_aux float.prec float.emax sx mx ex lx with
  | S754_finite s _ _ => s = sx
  | _ => True
  end.
Proof.
  unfold binary_round_aux.
  destruct (shr_fexp float.prec float.emax mx ex lx) as [mrs' e'].
  destruct (shr_fexp float.prec float.emax _ e' loc_Exact) as [mrs'' e''].
  destruct (shr_m mrs''); [exact I| |exact I].
  destruct (Z.leb e'' (float.emax - float.prec)); [reflexivity|exact I].
Qed.

Lemma of_int_sign (n : nat) :
  match float.of_int (Z.of_nat n) with
  | S754_finite s _ _ => s = false
  | _ => True
  end.
Proof.
  unfold float.of_int, binary_normalize.
  destruct (Z.of_nat n) eqn:E; [exact I| |lia].
  unfold binary_round. destruct (shl_align _ _ _) as [mz ez].
  apply binary_round_aux_sign.
Qed.

Lemma floor_nonneg (x : spec_float) (pixels : Z) :
  match x with S754_finite s _ _ => s = false | _ => True end ->
  float.floor x = Some pixels -> (0 <= pixels)%Z.
Proof.
  destruct x as [s|s| |s m e]; simpl; intros S E; try discriminate.
  - injection E as <-. lia.
  - subst s. injection E as <-. apply Z.shiftl_nonneg. lia.
Qed.

(** A render never moves the page down. *)
Lemma scroll_nonneg (n : nat) : (0 <= scroll n)%Z.
Proof.
  unfold scroll.
  destruct (float.floor _) as [pixels|] eqn:E; [|lia].
  apply (floor_nonneg _ _) in E; [exact E|].
  pose proof (of_int_sign n) as S.
  destruct (float.of_int (Z.of_nat n)) as [s|s| |s m e]; try exact I.
  subst s. unfold float.mul, float.literal_0_007, SFmul.
  apply binary_round_aux_sign.
Qed.

(** A key of one character other than [k] never completes the command. *)
Lemma one_character_quiet (buffer : str) (c : ascii) :
  c <> "k"%char ->
  endswith (buffered buffer [c]) (lit ";clock") = false.
Proof.
  intros N. rewrite buffered_endswith. apply not_true_is_false. intros E.
  apply endswith_iff in E. destruct E as [p E]. apply N.
  apply (f_equal (last_chars 1)) in E.
  rewrite !last_chars_app_long in E by (simpl; lia).
  injection E as E. exact E.
Qed.

Lemma climbed_nonneg (length_of_text n : nat) :
  (0 <= climbed length_of_text n)%Z.
Proof.
  revert length_of_text. induction n as [|n IH]; intros l; simpl; [lia|].
  pose proof (scroll_nonneg (S l)). pose proof (IH (S l)). lia.
Qed.

Lemma run_typing_a (n : nat) (self : TypewriterApp) :
  mode self = typewriter ->
  mode (run self (typing_a n)) = typewriter
  /\ text (run self (typing_a n)) = text self ++ repeat "a"%char n
  /\ y_offset (run self (typing_a n))
     = (y_offset self - climbed (length (text self)) n)%Z.
Proof.
  revert self. induction n as [|n IH]; intros self M.
  - simpl. rewrite app_nil_r. repeat split; [exact M|lia].
  - unfold typing_a. cbn [repeat]. rewrite run_cons. cbn [handle].
    fold (typing_a n).
    rewrite handle_keystroke_typed
      by (try exact M; apply one_character_quiet; discriminate).
    cbn [fst].
    change (match_key (lit "a") (text self)) with (text self ++ lit "a").
    match goal with |- context [run ?s (typing_a n)] =>
      destruct (IH s eq_refl) as (M' & T & Y) end.
    rewrite M', T, Y. cbn [text y_offset climbed].
    rewrite <- app_assoc, length_app. cbn [lit list_ascii_of_string length app repeat].
    replace (length (text self) + 1) with (S (length (text self))) by lia.
    repeat split. lia.
Qed.

Lemma page_of_a_eq (n : nat) :
  text (page_of_a n) = repeat "a"%char n
  /\ y_offset (page_of_a n) = (START_Y_OFFSET - climbed 0 n)%Z.
Proof.
  unfold page_of_a. rewrite run_cons. cbn [handle].
  rewrite handle_keystroke_clock by reflexivity. cbn [fst].
  match goal with |- context [run ?s (typing_a n)] =>
    destruct (run_typing_a n s eq_refl) as (_ & T & Y) end.
  rewrite T, Y. split; reflexivity.
Qed.

(** After 144 letters the page has been moved up twice, at the 143rd and
    at the 144th, which is not one pixel below the start. *)
Lemma offset_accumulates_over_renders :
  length (text (page_of_a 144)) = 144
  /\ y_offset (page_of_a 144) = 148%Z
  /\ (START_Y_OFFSET - scroll (length (text (page_of_a 144))))%Z = 149%Z.
Proof.
  destruct (page_of_a_eq 144) as [T Y]. rewrite T, Y.
  repeat split; vm_compute; reflexivity.
Qed.

(** C5, amended.  In typewriter mode a render takes
    [floor(len(text) * 0.007)] off the offset the page had before that
    render, not off the start value: a typed key leaves the offset of
    the state it found lowered by that amount for the new text.  The
    amount is never negative, so no event handled in typewriter mode
    raises the offset, whether the text grew or a character was
    removed.  After [n] letters typed on a fresh page the offset is the
    start value less the amounts of all [n] renders, and nothing stops
    it at zero: after 300 letters it is negative. *)
Theorem typed_key_lowers_offset_by_scroll
  (w : world) (self : TypewriterApp) (key : str) (e : event) :
  mode self = typewriter ->
  (endswith (buffered (command_buffer self) key) (lit ";clock") = false ->
   y_offset (fst (_handle_keystroke w self key))
   = (y_offset self
      - scroll (length (text (fst (_handle_keystroke w self key)))))%Z)
  /\ y_offset (fst (fst (_render_typewriter w self)))
     = (y_offset self - scroll (length (text self)))%Z
  /\ (0 <= scroll (length (text self)))%Z
  /\ (y_offset (fst (handle w self e)) <= y_offset self)%Z
  /\ (forall n : nat,
      y_offset (page_of_a n) = (START_Y_OFFSET - climbed 0 n)%Z)
  /\ reachable (page_of_a 300)
  /\ (y_offset (page_of_a 300) < 0)%Z.
Proof.
  intros M. split; [|split; [|split; [|split; [|split; [|split]]]]].
  - intros E. rewrite handle_keystroke_typed by assumption. reflexivity.
  - reflexivity.
  - apply scroll_nonneg.
  - destruct e as [k|current]; cbn [handle].
    + destruct (endswith (buffered (command_buffer self) k) (lit ";clock"))
        eqn:E.
      * rewrite handle_keystroke_command by assumption. simpl. lia.
      * rewrite handle_keystroke_typed by assumption. cbn [fst y_offset].
        pose proof (scroll_nonneg (length (match_key k (text self)))). lia.
    + rewrite update_clock_display_eq. simpl. lia.
  - intros n. apply page_of_a_eq.
  - apply reachable_run, reachable_start.
  - destruct (page_of_a_eq 300) as [_ Y]. rewrite Y. vm_compute. reflexivity.
Qed.

Lemma typed_key_lowers_offset_by_scroll_witness :
  mode (typewriter_page (lit "h") (lit "h")) = typewriter
  /\ y_offset (fst (fst (_render_typewriter calm
                           (typewriter_page (lit "h") (lit "h")))))
     = (y_offset (typewriter_page (lit "h") (lit "h"))
        - scroll (length (text (typewriter_page (lit "h") (lit "h")))))%Z.
Proof.
  split; [reflexivity|].
  exact (proj1 (proj2 (typed_key_lowers_offset_by_scroll calm
                         (typewriter_page (lit "h") (lit "h")) (lit "i")
                         (key_event (lit "i")) eq_refl))).
Defined.

(* ================================================================== *)
(** * Cleaning a quote twice *)
(* ================================================================== *)

(** Where a pattern is found nowhere, [re.sub] returns the subject. *)
Lemma sub_from_no_match (p : re.pattern) (repl : str) (s : str) :
  forall at_start : bool,
  re.search_from p at_start s = false -> re.sub_from p repl at_start 0 s = s.
Proof.
  induction s as [|c s IH]; intros at_start H; simpl in *.
  - destruct (re.match_here p at_start []); [discriminate|reflexivity].
  - destruct (re.match_here p at_start (c :: s)); [discriminate|].
    rewrite IH by exact H. reflexivity.
Qed.

Lemma sub_no_match (p : re.pattern) (repl s : str) :
  re.search p s = false -> re.sub p repl s = s.
Proof. apply sub_from_no_match. Qed.

Lemma match_here_spaces (at_start : bool) (s : str) :
  re.match_here spaces_re at_start s
  = match Py.run isspace s with 0 => None | S n => Some (S n) end.
Proof.
  unfold spaces_re, re.plus. cbn [re.match_here].
  destruct (Py.run isspace s) as [|n]; [reflexivity|].
  cbn [Nat.ltb Nat.leb]. replace (S n - 1) with n by lia.
  destruct n; cbn [re.try_down option_map]; f_equal; lia.
Qed.

Lemma sub_from_spaces (s : str) :
  (forall at_start : bool,
     re.sub_from spaces_re (lit " ") at_start 0 s = collapse false s)
  /\ (forall at_start : bool,
        re.sub_from spaces_re (lit " ") at_start (Py.run isspace s) s
        = collapse true s).
Proof.
  induction s as [|c s [IH0 IH1]].
  - split; intros at_start; cbn [re.sub_from Py.run];
      rewrite ?match_here_spaces; reflexivity.
  - assert (B : forall at_start : bool,
               re.sub_from spaces_re (lit " ") at_start 0 (c :: s)
               = collapse false (c :: s)).
    { intros at_start. cbn [re.sub_from]. rewrite match_here_spaces.
      cbn [Py.run collapse]. destruct (isspace c).
      - rewrite IH1. reflexivity.
      - rewrite IH0. reflexivity. }
    split; [exact B|]. intros at_start.
    cbn [Py.run]. destruct (isspace c) eqn:E.
    + cbn [re.sub_from collapse]. rewrite E. apply IH1.
    + rewrite B. cbn [collapse]. rewrite E. reflexivity.
Qed.

Lemma sub_spaces (s : str) : re.sub spaces_re (lit " ") s = collapse false s.
Proof. apply sub_from_spaces. Qed.

Lemma collapse_single_spaced (s : str) :
  forall in_run : bool, single_spaced in_run (collapse in_run s) = true.
Proof.
  induction s as [|c s IH]; intros in_run; [reflexivity|].
  cbn [collapse]. destruct (isspace c) eqn:E.
  - destruct in_run; [apply IH|].
    cbn [single_spaced]. rewrite IH. reflexivity.
  - cbn [single_spaced]. rewrite E. apply IH.
Qed.

Lemma single_spaced_collapse (s : str) :
  forall in_run : bool,
  single_spaced in_run s = true -> collapse in_run s = s.
Proof.
  induction s as [|c s IH]; intros in_run H; [reflexivity|].
  cbn [collapse single_spaced] in *. destruct (isspace c).
  - apply andb_prop in H. destruct H as [H S].
    apply andb_prop in H. destruct H as [C N].
    apply Ascii.eqb_eq in C. subst c.
    destruct in_run; [discriminate|]. rewrite IH by exact S. reflexivity.
  - rewrite IH by exact H. reflexivity.
Qed.

Lemma single_spaced_weaken (s : str) (after_space : bool) :
  single_spaced after_space s = true -> single_spaced false s = true.
Proof.
  destruct s as [|c s]; [reflexivity|]. cbn [single_spaced].
  destruct (isspace c); [|trivial]. intros H.
  apply andb_prop in H. destruct H as [H S].
  apply andb_prop in H. destruct H as [C N].
  rewrite C, S. reflexivity.
Qed.

Lemma single_spaced_prefix (p t : str) :
  forall after_space : bool,
  single_spaced after_space (p ++ t) = true ->
  single_spaced after_space p = true.
Proof.
  induction p as [|c p IH]; intros after_space H; [reflexivity|].
  cbn [app single_spaced] in *. destruct (isspace c).
  - apply andb_prop in H. destruct H as [H S].
    rewrite H, (IH true S). reflexivity.
  - apply IH, H.
Qed.

Lemma single_spaced_lstrip (s : str) :
  forall after_space : bool,
  single_spaced after_space s = true -> single_spaced false (lstrip s) = true.
Proof.
  induction s as [|c s IH]; intros after_space H; [reflexivity|].
  cbn [lstrip]. destruct (isspace c) eqn:E.
  - cbn [single_spaced] in H. rewrite E in H.
    apply andb_prop in H. destruct H as [_ S]. apply (IH true S).
  - apply (single_spaced_weaken _ after_space), H.
Qed.

Lemma lstrip_suffix (s : str) : exists p : str, s = p ++ lstrip s.
Proof.
  induction s as [|c s [p IH]]; [exists []; reflexivity|].
  cbn [lstrip]. destruct (isspace c).
  - exists (c :: p). simpl. f_equal. exact IH.
  - exists []. reflexivity.
Qed.

Lemma rstrip_prefix (s : str) : exists t : str, s = rstrip s ++ t.
Proof.
  unfold rstrip. destruct (lstrip_suffix (rev s)) as [p E].
  exists (rev p). rewrite <- rev_app_distr, <- E, rev_involutive.
  reflexivity.
Qed.

Lemma lstrip_head (s : str) : head_is isspace (lstrip s) = false.
Proof.
  induction s as [|c s IH]; [reflexivity|].
  cbn [lstrip]. destruct (isspace c) eqn:E; [exact IH|].
  simpl. exact E.
Qed.

Lemma lstrip_fixed (s : str) : head_is isspace s = false -> lstrip s = s.
Proof.
  destruct s as [|c s]; [reflexivity|]. simpl. intros E. rewrite E.
  reflexivity.
Qed.

Lemma rstrip_head (s : str) :
  head_is isspace s = false -> head_is isspace (rstrip s) = false.
Proof.
  intros H. destruct (rstrip_prefix s) as [t E].
  destruct (rstrip s) as [|c r]; [reflexivity|].
  rewrite E in H. exact H.
Qed.

Lemma rstrip_rstrip (s : str) : rstrip (rstrip s) = rstrip s.
Proof.
  unfold rstrip. rewrite rev_involutive.
  rewrite (lstrip_fixed (lstrip (rev s))) by apply lstrip_head.
  reflexivity.
Qed.

(** [strip] leaves what it returns as it is. *)
Lemma strip_strip (s : str) : strip (strip s) = strip s.
Proof.
  unfold strip.
  rewrite (lstrip_fixed (rstrip (lstrip s)))
    by apply rstrip_head, lstrip_head.
  apply rstrip_rstrip.
Qed.

Lemma single_spaced_strip (s : str) (after_space : bool) :
  single_spaced after_space s = true -> single_spaced false (strip s) = true.
Proof.
  intros H. unfold strip.
  destruct (rstrip_prefix (lstrip s)) as [t E].
  apply (single_spaced_prefix _ t). rewrite <- E.
  apply (single_spaced_lstrip _ after_space), H.
Qed.

(** What [clean_quote_text] returns has single spaces only, none of them
    first or last. *)
Lemma clean_quote_text_spaces (x : str) :
  re.sub spaces_re (lit " ") (clean_quote_text x) = clean_quote_text x
  /\ strip (clean_quote_text x) = clean_quote_text x.
Proof.
  destruct x as [|c x]; [split; reflexivity|].
  unfold clean_quote_text.
  set (t := re.sub leading_meridiem_re _ _).
  rewrite (sub_spaces t). split.
  - rewrite sub_spaces. apply single_spaced_collapse.
    apply (single_spaced_strip _ false), collapse_single_spaced.
  - apply strip_strip.
Qed.

(** C4.  Cleaning is not idempotent.  Of two timestamps with seconds in
    a row one pass removes the first only, because the whitespace
    between them belongs to the first match and the pattern asks for
    whitespace before the second; a second pass removes the other.  The
    pattern for timestamps with AM or PM looks ahead for the whitespace
    after it without taking it, and removes both in one pass. *)
Theorem second_timestamp_survives_one_pass :
  clean_quote_text (lit "a 12:00:00 12:00:00 b") = lit "a 12:00:00 b"
  /\ clean_quote_text (clean_quote_text (lit "a 12:00:00 12:00:00 b"))
     = lit "a b"
  /\ clean_quote_text (clean_quote_text (lit "a 12:00:00 12:00:00 b"))
     <> clean_quote_text (lit "a 12:00:00 12:00:00 b")
  /\ re.search seconds_re (clean_quote_text (lit "a 12:00:00 12:00:00 b"))
     = true
  /\ clean_quote_text (lit "a 12:00 AM 12:00 AM b") = lit "a b".
Proof.
  assert (A : clean_quote_text (lit "a 12:00:00 12:00:00 b")
              = lit "a 12:00:00 b") by (vm_compute; reflexivity).
  assert (B : clean_quote_text (lit "a 12:00:00 b") = lit "a b")
    by (vm_compute; reflexivity).
  rewrite A, B. repeat split; try discriminate; vm_compute; reflexivity.
Qed.

(** X24.  Cleaning a second time changes nothing when the first pass
    has left nothing behind that one of the four patterns that remove
    text would match. *)
Theorem clean_quote_text_twice (x : str) :
  re.search tag_re (clean_quote_text x) = false ->
  re.search seconds_re (clean_quote_text x) = false ->
  re.search meridiem_re (clean_quote_text x) = false ->
  re.search leading_meridiem_re (clean_quote_text x) = false ->
  clean_quote_text (clean_quote_text x) = clean_quote_text x.
Proof.
  intros T S M L. destruct (clean_quote_text_spaces x) as [C P].
  destruct (clean_quote_text x) as [|c y] eqn:E; [reflexivity|].
  unfold clean_quote_text.
  rewrite (sub_no_match tag_re _ _ T), (sub_no_match seconds_re _ _ S),
    (sub_no_match meridiem_re _ _ M), (sub_no_match leading_meridiem_re _ _ L).
  rewrite C. exact P.
Qed.

Lemma clean_quote_text_twice_witness :
  re.search tag_re (clean_quote_text (row_quote sample_row)) = false
  /\ clean_quote_text (clean_quote_text (row_quote sample_row))
     = clean_quote_text (row_quote sample_row).
Proof.
  split; [vm_compute; reflexivity|].
  apply (clean_quote_text_twice (row_quote sample_row));
    vm_compute; reflexivity.
Defined.

(* ================================================================== *)
(** * The width of wrapped lines *)
(* ================================================================== *)












(* ================================================================== *)
(** * Invariants of the event loop *)
(* ================================================================== *)

(** A general induction principle for the states reached: a property of
    the first state that every handler keeps holds throughout. *)
Lemma reachable_invariant (P : TypewriterApp -> Prop) :
  (forall w : world, P (fst (start w))) ->
  (forall (w : world) (self : TypewriterApp) (key : str),
     P self -> P (fst (_handle_keystroke w self key))) ->
  (forall (w : world) (self : TypewriterApp) (current : nat * nat),
     P self -> P (fst (_update_clock_display w self current))) ->
  forall self : TypewriterApp, reachable self -> P self.
Proof.
  intros S K U self R. induction R as [w|w self e R IH].
  - apply S.
  - destruct e as [key|current]; cbn [handle]; [apply K|apply U]; exact IH.
Qed.

Lemma appended_not_empty (quotes : list str) (quote : str) :
  1 <= length (appended quotes quote).
Proof.
  unfold appended.
  destruct (Nat.ltb_spec 15 (length (quotes ++ [quote]))) as [L|L].
  - rewrite length_tl. lia.
  - rewrite length_app. simpl. lia.
Qed.

(** X1.  The command buffer never holds more than six characters. *)
Theorem command_buffer_at_most_6 (self : TypewriterApp) :
  reachable self -> length (command_buffer self) <= 6.
Proof.
  revert self.
  apply (reachable_invariant (fun s => length (command_buffer s) <= 6)).
  - intros w. unfold start. rewrite update_clock_display_eq. simpl. lia.
  - intros w s key H. destruct (mode s) eqn:M.
    + rewrite handle_keystroke_clock by exact M. exact H.
    + destruct (endswith (buffered (command_buffer s) key) (lit ";clock"))
        eqn:E.
      * rewrite handle_keystroke_command by assumption. simpl. lia.
      * rewrite handle_keystroke_typed by assumption. cbn [fst command_buffer].
        rewrite buffered_window, last_chars_length. lia.
  - intros w s current H. rewrite update_clock_display_eq. exact H.
Qed.

Lemma command_buffer_at_most_6_witness :
  reachable almost_command /\ length (command_buffer almost_command) <= 6.
Proof.
  split; [exact almost_command_reachable|].
  exact (command_buffer_at_most_6 almost_command almost_command_reachable).
Defined.

(** X2.  The history of quotes is never empty: the first quote is stored
    before the loop starts, entering clock mode stores one at once, and
    the eviction leaves fifteen. *)
Theorem quote_history_never_empty (self : TypewriterApp) :
  reachable self -> 1 <= length (clock_quotes self).
Proof.
  revert self.
  apply (reachable_invariant (fun s => 1 <= length (clock_quotes s))).
  - intros w. unfold start. rewrite update_clock_display_eq.
    apply appended_not_empty.
  - intros w s key H. destruct (mode s) eqn:M.
    + rewrite handle_keystroke_clock by exact M. exact H.
    + destruct (endswith (buffered (command_buffer s) key) (lit ";clock"))
        eqn:E.
      * rewrite handle_keystroke_command by assumption. simpl. lia.
      * rewrite handle_keystroke_typed by assumption. exact H.
  - intros w s current H. rewrite update_clock_display_eq.
    apply appended_not_empty.
Qed.

Lemma quote_history_never_empty_witness :
  reachable almost_command /\ 1 <= length (clock_quotes almost_command).
Proof.
  split; [exact almost_command_reachable|].
  exact (quote_history_never_empty almost_command almost_command_reachable).
Defined.

(** X3.  The page is never drawn below its start position: the offset
    starts at [START_Y_OFFSET], is set back to it when the clock is
    left, and every render lowers it or leaves it. *)
Theorem offset_never_above_start (self : TypewriterApp) :
  reachable self -> (y_offset self <= START_Y_OFFSET)%Z.
Proof.
  revert self.
  apply (reachable_invariant (fun s => (y_offset s <= START_Y_OFFSET)%Z)).
  - intros w. unfold start. rewrite update_clock_display_eq. simpl. lia.
  - intros w s key H. destruct (mode s) eqn:M.
    + rewrite handle_keystroke_clock by exact M. simpl. lia.
    + destruct (endswith (buffered (command_buffer s) key) (lit ";clock"))
        eqn:E.
      * rewrite handle_keystroke_command by assumption. exact H.
      * rewrite handle_keystroke_typed by assumption. cbn [fst y_offset].
        pose proof (scroll_nonneg (length (match_key key (text s)))). lia.
  - intros w s current H. rewrite update_clock_display_eq. exact H.
Qed.

Lemma offset_never_above_start_witness :
  reachable almost_command /\ (y_offset almost_command <= START_Y_OFFSET)%Z.
Proof.
  split; [exact almost_command_reachable|].
  exact (offset_never_above_start almost_command almost_command_reachable).
Defined.

(** X4.  What was typed does not survive a visit to the clock: the
    command keeps the page while the clock is shown, and the key that
    leaves the clock clears it, whatever the key; that key is not typed
    and not put in the buffer. *)
Theorem page_is_cleared_by_the_key_that_leaves_the_clock
  (w w' : world) (self : TypewriterApp) (key key' : str) :
  mode self = typewriter ->
  endswith (buffered (command_buffer self) key) (lit ";clock") = true ->
  text (fst (_handle_keystroke w self key)) = text self
  /\ run self [(w, key_event key); (w', key_event key')]
     = {| mode := typewriter; command_buffer := []; text := [];
          y_offset := START_Y_OFFSET;
          clock_quotes := [display_text w (now w)] |}.
Proof.
  intros M E. cbn [run handle].
  rewrite handle_keystroke_command by assumption. cbn [fst text].
  split; [reflexivity|].
  rewrite handle_keystroke_clock by reflexivity. reflexivity.
Qed.

Lemma page_is_cleared_by_the_key_that_leaves_the_clock_witness :
  text (run almost_command [(calm, key_event (lit "k"));
                            (calm, key_event (lit "z"))]) = [].
Proof.
  rewrite (proj2 (page_is_cleared_by_the_key_that_leaves_the_clock
                    calm calm almost_command (lit "k") (lit "z")
                    ltac:(vm_compute; reflexivity)
                    ltac:(vm_compute; reflexivity))).
  reflexivity.
Defined.

Lemma match_key_character (c : ascii) (page : str) :
  match_key [c] page = page ++ [c].
Proof.
  unfold match_key, lit. cbn [list_ascii_of_string str_eqb].
  rewrite !andb_false_r. reflexivity.
Qed.

Lemma backspace_quiet (buffer : str) :
  endswith (buffered buffer (lit "backspace")) (lit ";clock") = false.
Proof.
  rewrite buffered_endswith, endswith_app_long by (simpl; lia). reflexivity.
Qed.

(** X5.  Backspace after a character gives the page back as it was, but
    not the offset: both keys are rendered and both renders lower it. *)
Theorem backspace_restores_page_not_offset
  (w w' : world) (self : TypewriterApp) (c : ascii) :
  mode self = typewriter -> c <> "k"%char ->
  text (run self [(w, key_event [c]); (w', key_event (lit "backspace"))])
  = text self
  /\ y_offset (run self [(w, key_event [c]);
                         (w', key_event (lit "backspace"))])
     = (y_offset self - scroll (S (length (text self)))
        - scroll (length (text self)))%Z.
Proof.
  intros M N. cbn [run handle].
  rewrite (handle_keystroke_typed w self [c])
    by (try exact M; apply one_character_quiet; exact N).
  cbn [fst]. rewrite handle_keystroke_typed
    by (try reflexivity; apply backspace_quiet).
  cbn [fst text y_offset]. rewrite match_key_character.
  change (match_key (lit "backspace") (text self ++ [c]))
    with (drop_last (text self ++ [c])).
  unfold drop_last. rewrite removelast_last, length_app. simpl length.
  replace (length (text self) + 1) with (S (length (text self))) by lia.
  split; reflexivity.
Qed.

Lemma backspace_restores_page_not_offset_witness :
  text (run (typewriter_page (lit "h") (lit "h"))
          [(calm, key_event (lit "i"));
           (calm, key_event (lit "backspace"))]) = lit "h".
Proof.
  refine (proj1 (backspace_restores_page_not_offset calm calm
                   (typewriter_page (lit "h") (lit "h")) "i"%char
                   eq_refl _)).
  discriminate.
Defined.

(* ================================================================== *)
(** * Key codes *)
(* ================================================================== *)

Lemma punct_map_values (shift : bool) (keycode char : str) :
  lookup keycode (punct_map shift) = Some char -> length char = 1.
Proof.
  unfold punct_map. cbn [lookup].
  repeat (destruct (str_eqb keycode _);
          [intros [= <-]; destruct shift; reflexivity|]).
  discriminate.
Qed.

(** X6.  A key code is decoded to one of the three names [space],
    [backspace] and [enter] or to a single character, never to the empty
    string: the test [if char] of the reading thread drops exactly the
    key codes that are not decoded. *)
Theorem decoded_key_is_a_name_or_a_character
  (shift : bool) (keycode char : str) :
  _evdev_key_to_char shift keycode = Some char ->
  (char = lit "space" \/ char = lit "backspace" \/ char = lit "enter"
   \/ length char = 1)
  /\ char <> [].
Proof.
  intros H.
  assert (G : char = lit "space" \/ char = lit "backspace"
              \/ char = lit "enter" \/ length char = 1).
  { revert H. unfold _evdev_key_to_char.
    destruct (str_eqb keycode (lit "KEY_SPACE")); [intros [= <-]; tauto|].
    destruct (str_eqb keycode (lit "KEY_BACKSPACE")); [intros [= <-]; tauto|].
    destruct (str_eqb keycode (lit "KEY_ENTER")); [intros [= <-]; tauto|].
    cbv zeta.
    destruct (_ && between 97 122 _); [intros [= <-]; tauto|].
    destruct (_ && between 48 57 _); [intros [= <-]; tauto|].
    intros H. apply punct_map_values in H. tauto. }
  split; [exact G|].
  destruct G as [->|[->|[->|G]]]; try discriminate.
  intros ->. discriminate.
Qed.

Lemma decoded_key_is_a_name_or_a_character_witness :
  _evdev_key_to_char true (lit "KEY_SEMICOLON") = Some (lit ":")
  /\ lit ":" <> [].
Proof.
  split; [reflexivity|].
  exact (proj2 (decoded_key_is_a_name_or_a_character true
                  (lit "KEY_SEMICOLON") (lit ":") eq_refl)).
Defined.

Lemma letter_key_decoded (c : ascii) :
  between 65 90 c = true ->
  _evdev_key_to_char false (lit "KEY_" ++ [c]) = Some [lower c]
  /\ _evdev_key_to_char true (lit "KEY_" ++ [c]) = Some [c]
  /\ lower c <> c.
Proof.
  destruct c as [[] [] [] [] [] [] [] []]; intros H;
    try discriminate H; repeat split; discriminate.
Qed.

(** X7.  The key of a letter gives the lower-case letter, and the
    capital when shift is down. *)
Theorem letter_key_follows_shift (c : ascii) :
  between 65 90 c = true ->
  _evdev_key_to_char false (lit "KEY_" ++ [c]) = Some [lower c]
  /\ _evdev_key_to_char true (lit "KEY_" ++ [c]) = Some [c]
  /\ lower c <> c.
Proof. apply letter_key_decoded. Qed.

Lemma letter_key_follows_shift_witness :
  _evdev_key_to_char false (lit "KEY_Q") = Some (lit "q").
Proof.
  exact (proj1 (letter_key_follows_shift "Q"%char eq_refl)).
Defined.

Lemma key_prefix (keycode literal : str) :
  startswith keycode (lit "KEY_") = false ->
  startswith literal (lit "KEY_") = true ->
  str_eqb keycode literal = false.
Proof.
  intros H L. apply str_eqb_neq. intros ->. congruence.
Qed.

(** X8.  A code that does not start with [KEY_] is not decoded. *)
Theorem foreign_code_is_not_decoded (shift : bool) (keycode : str) :
  startswith keycode (lit "KEY_") = false ->
  _evdev_key_to_char shift keycode = None.
Proof.
  intros H. unfold _evdev_key_to_char, punct_map. cbn [lookup].
  rewrite H. cbn [andb].
  rewrite !(key_prefix keycode) by (exact H || reflexivity).
  reflexivity.
Qed.

Lemma foreign_code_is_not_decoded_witness :
  _evdev_key_to_char false (lit "BTN_LEFT") = None.
Proof.
  exact (foreign_code_is_not_decoded false (lit "BTN_LEFT") eq_refl).
Defined.

Lemma upper_of_letter_is_no_semicolon (c : ascii) :
  between 97 122 c = true -> upper c <> ";"%char /\ c <> ";"%char.
Proof.
  destruct c as [[] [] [] [] [] [] [] []]; intros H;
    try discriminate H; split; discriminate.
Qed.

Lemma digit_is_no_semicolon (c : ascii) :
  between 48 57 c = true -> shift_map c <> ";"%char /\ c <> ";"%char.
Proof.
  destruct c as [[] [] [] [] [] [] [] []]; intros H;
    try discriminate H; split; discriminate.
Qed.

(** X9.  The semicolon comes from the key [KEY_SEMICOLON] without shift
    and from nothing else: with shift down no key gives it, so the
    command cannot be begun. *)
Theorem semicolon_needs_its_key_without_shift (shift : bool) (keycode : str) :
  _evdev_key_to_char shift keycode = Some (lit ";")
  <-> shift = false /\ keycode = lit "KEY_SEMICOLON".
Proof.
  split; [|intros [-> ->]; reflexivity].
  unfold _evdev_key_to_char.
  destruct (str_eqb keycode (lit "KEY_SPACE")); [discriminate|].
  destruct (str_eqb keycode (lit "KEY_BACKSPACE")); [discriminate|].
  destruct (str_eqb keycode (lit "KEY_ENTER")); [discriminate|].
  cbv zeta.
  destruct (startswith keycode (lit "KEY_") && (length keycode =? 5));
    cbn [andb].
  - destruct (between 97 122 (lower (nth 4 keycode " "%char))) eqn:L.
    + apply upper_of_letter_is_no_semicolon in L. destruct L as [U V].
      destruct shift; intros [= E]; congruence.
    + destruct (between 48 57 (nth 4 keycode " "%char)) eqn:D.
      * apply digit_is_no_semicolon in D. destruct D as [U V].
        destruct shift; intros [= E]; congruence.
      * unfold punct_map. cbn [lookup].
        destruct (str_eqb keycode (lit "KEY_SEMICOLON")) eqn:K.
        -- apply str_eqb_eq in K. destruct shift; [discriminate|].
           intros _. split; [reflexivity|exact K].
        -- repeat (destruct (str_eqb keycode _); [discriminate|]).
           discriminate.
  - unfold punct_map. cbn [lookup].
    destruct (str_eqb keycode (lit "KEY_SEMICOLON")) eqn:K.
    + apply str_eqb_eq in K. destruct shift; [discriminate|].
      intros _. split; [reflexivity|exact K].
    + repeat (destruct (str_eqb keycode _); [discriminate|]).
      discriminate.
Qed.

(* ================================================================== *)
(** * The reading thread and the clock thread *)
(* ================================================================== *)

Lemma keyboard_read_puts (k : keyboard) (e : input_event) :
  Forall is_decoded_key (snd (keyboard_read k e))
  /\ length (snd (keyboard_read k e)) <= 1.
Proof.
  destruct e as [|keycode state t]; cbn [keyboard_read].
  - split; [apply Forall_nil|simpl; lia].
  - destruct (is_shift keycode); [split; [apply Forall_nil|simpl; lia]|].
    destruct state; try (split; [apply Forall_nil|simpl; lia]).
    destruct (SFltb _ _); [split; [apply Forall_nil|simpl; lia]|].
    destruct (_evdev_key_to_char (shift_pressed k) keycode)
      as [[|c char]|] eqn:E;
      [split; [apply Forall_nil|simpl; lia]| |split; [apply Forall_nil|simpl; lia]].
    split; [|simpl; lia]. apply Forall_cons; [|apply Forall_nil].
    exists (shift_pressed k), keycode, (c :: char). split; [reflexivity|exact E].
Qed.

Lemma keyboard_read_loop_cons (k : keyboard) (e : input_event)
  (rest : list input_event) :
  keyboard_read_loop k (e :: rest)
  = (fst (keyboard_read_loop (fst (keyboard_read k e)) rest),
     snd (keyboard_read k e)
     ++ snd (keyboard_read_loop (fst (keyboard_read k e)) rest)).
Proof.
  cbn [keyboard_read_loop]. destruct (keyboard_read k e) as [k' put].
  cbn [fst snd]. destruct (keyboard_read_loop k' rest). reflexivity.
Qed.

(** X10.  The reading thread puts decoded keys on the queue and nothing
    else, at most one for each event read: no clock update, and no key
    for an event that is not a key going down. *)
Theorem keyboard_read_loop_puts_decoded_keys
  (k : keyboard) (events : list input_event) :
  Forall is_decoded_key (snd (keyboard_read_loop k events))
  /\ length (snd (keyboard_read_loop k events)) <= length events
  /\ (forall (keycode : str) (state : keystate) (t : spec_float),
      state <> key_down ->
      snd (keyboard_read k (ev_key keycode state t)) = []).
Proof.
  split; [|split].
  - revert k. induction events as [|e rest IH]; intros k; [constructor|].
    rewrite keyboard_read_loop_cons. cbn [snd]. apply Forall_app.
    split; [apply keyboard_read_puts|apply IH].
  - revert k. induction events as [|e rest IH]; intros k; [simpl; lia|].
    rewrite keyboard_read_loop_cons. cbn [snd]. rewrite length_app.
    pose proof (proj2 (keyboard_read_puts k e)).
    pose proof (IH (fst (keyboard_read k e))). simpl length. lia.
  - intros keycode state t N. cbn [keyboard_read].
    destruct (is_shift keycode); [reflexivity|].
    destruct state; try reflexivity. contradiction.
Qed.

(** X11.  Shift counts as down only after an event of a shift key going
    down: the repeats the key sends while it is held say [key_hold], and
    they set the flag back as a release does.  A letter that follows
    such a repeat comes out in lower case. *)
Theorem shift_repeat_releases_shift
  (k : keyboard) (keycode : str) (state : keystate) (t t' : spec_float)
  (c : ascii) :
  is_shift keycode = true ->
  between 65 90 c = true ->
  SFltb (SFsub float.prec float.emax t' (last_event_time k))
    min_event_interval = false ->
  keyboard_read k (ev_key keycode state t)
  = ({| shift_pressed := match state with key_down => true | _ => false end;
        last_event_time := last_event_time k |}, [])
  /\ snd (keyboard_read_loop k
            [ev_key keycode key_down t; ev_key keycode key_hold t;
             ev_key (lit "KEY_" ++ [c]) key_down t'])
     = [key_event [lower c]]
  /\ snd (keyboard_read_loop k
            [ev_key keycode key_down t;
             ev_key (lit "KEY_" ++ [c]) key_down t'])
     = [key_event [c]].
Proof.
  intros S L D.
  assert (N : is_shift (lit "KEY_" ++ [c]) = false).
  { unfold is_shift, lit. cbn [list_ascii_of_string app str_eqb].
    rewrite !andb_false_r. reflexivity. }
  destruct (letter_key_decoded c L) as (Low & Up & _).
  split; [|split].
  - cbn [keyboard_read]. rewrite S. reflexivity.
  - rewrite !keyboard_read_loop_cons. cbn [keyboard_read_loop snd fst].
    cbn [keyboard_read]. rewrite S, N. cbn [fst snd shift_pressed last_event_time].
    rewrite D, Low. reflexivity.
  - rewrite !keyboard_read_loop_cons. cbn [keyboard_read_loop snd fst].
    cbn [keyboard_read]. rewrite S, N. cbn [fst snd shift_pressed last_event_time].
    rewrite D, Up. reflexivity.
Qed.

Lemma shift_repeat_releases_shift_witness :
  snd (keyboard_read_loop keyboard_start
         [ev_key (lit "KEY_LEFTSHIFT") key_down (float.of_int 1);
          ev_key (lit "KEY_LEFTSHIFT") key_hold (float.of_int 1);
          ev_key (lit "KEY_Q") key_down (float.of_int 2)])
  = [key_event (lit "q")].
Proof.
  exact (proj1 (proj2 (shift_repeat_releases_shift keyboard_start
                         (lit "KEY_LEFTSHIFT") key_up (float.of_int 1)
                         (float.of_int 2) "Q"%char eq_refl eq_refl
                         ltac:(vm_compute; reflexivity)))).
Defined.

Lemma clock_update_loop_cons (last_minute : option (nat * nat)) (seen : Mode)
  (current : nat * nat) (rest : list (Mode * (nat * nat))) :
  clock_update_loop last_minute ((seen, current) :: rest)
  = snd (clock_tick last_minute seen current)
    ++ clock_update_loop (fst (clock_tick last_minute seen current)) rest.
Proof.
  cbn [clock_update_loop]. destruct (clock_tick last_minute seen current).
  reflexivity.
Qed.

Lemma minute_eqb_eq (a b : nat * nat) : minute_eqb a b = true <-> a = b.
Proof.
  destruct a as [h m], b as [h' m']. unfold minute_eqb. cbn [fst snd].
  rewrite andb_true_iff, !Nat.eqb_eq. split; [intros [-> ->]|intros [= -> ->]];
    auto.
Qed.

(** X12.  The clock thread puts clock updates only, one for each change
    of the minute it sees while the clock is shown: never two in a row
    for the same minute, none while it sees typewriter mode, and each
    for a minute it has read in clock mode. *)
Theorem clock_update_loop_puts_changes
  (last_minute : option (nat * nat)) (ticks : list (Mode * (nat * nat))) :
  changing last_minute (minutes (clock_update_loop last_minute ticks))
  /\ length (minutes (clock_update_loop last_minute ticks))
     = length (clock_update_loop last_minute ticks)
  /\ (forall current : nat * nat,
      In (clock_update current) (clock_update_loop last_minute ticks) ->
      In (clock, current) ticks)
  /\ (Forall (fun tick => fst tick = typewriter) ticks ->
      clock_update_loop last_minute ticks = []).
Proof.
  revert last_minute.
  induction ticks as [|[seen current] rest IH]; intros last_minute.
  - cbn. repeat split. intros _ F. exact F.
  - rewrite clock_update_loop_cons.
    destruct seen; cbn [clock_tick].
    + destruct (match last_minute with
                | Some l => minute_eqb current l
                | None => false
                end) eqn:E; cbn [fst snd app].
      * destruct (IH last_minute) as (A & B & C & D).
        repeat split; [exact A|exact B| |].
        -- intros c H. right. apply C, H.
        -- intros F. inversion F. discriminate.
      * destruct (IH (Some current)) as (A & B & C & D).
        cbn [minutes changing length]. repeat split.
        -- intros ->. rewrite (proj2 (minute_eqb_eq current current) eq_refl)
             in E. discriminate.
        -- exact A.
        -- rewrite B. reflexivity.
        -- intros c [[= <-]|H]; [left; reflexivity|right; apply C, H].
        -- intros F. inversion F. discriminate.
    + cbn [fst snd app]. destruct (IH last_minute) as (A & B & C & D).
      repeat split; [exact A|exact B| |].
      * intros c H. right. apply C, H.
      * intros F. inversion F. apply D. assumption.
Qed.

(* ================================================================== *)
(** * Looking for the keyboard *)
(* ================================================================== *)

Lemma find_none_iff {A : Type} (f : A -> bool) (l : list A) :
  find f l = None <-> Forall (fun x => f x = false) l.
Proof.
  induction l as [|x l IH]; simpl.
  - split; [constructor|reflexivity].
  - destruct (f x) eqn:E.
    + split; [discriminate|]. intros F. inversion F. congruence.
    + rewrite IH. split; [constructor; assumption|].
      intros F. inversion F. assumption.
Qed.

(** X13.  The device returned is one of the devices listed and passes
    one of the three tests, and [RuntimeError] is raised exactly when no
    device passes any. *)
Theorem find_typewriter_device_finds_an_eligible_device
  (devices : list evdev.InputDevice) :
  (forall device : evdev.InputDevice,
     find_typewriter_device devices = Some device ->
     In device devices /\ eligible device = true)
  /\ (find_typewriter_device devices = None
      <-> Forall (fun device => eligible device = false) devices).
Proof.
  unfold find_typewriter_device, eligible. split.
  - intros device.
    destruct (find named_typewriter devices) as [d|] eqn:T.
    { intros [= <-]. apply find_some in T. destruct T as [I T].
      rewrite T. auto. }
    destruct (find named_keyboard devices) as [d|] eqn:K.
    { intros [= <-]. apply find_some in K. destruct K as [I K].
      rewrite K, orb_true_r. auto. }
    intros H. apply find_some in H. destruct H as [I H].
    rewrite H, orb_true_r. auto.
  - destruct (find named_typewriter devices) as [d|] eqn:T.
    { split; [discriminate|]. intros F. apply find_some in T.
      destruct T as [I T]. rewrite Forall_forall in F. specialize (F d I).
      rewrite T in F. discriminate. }
    destruct (find named_keyboard devices) as [d|] eqn:K.
    { split; [discriminate|]. intros F. apply find_some in K.
      destruct K as [I K]. rewrite Forall_forall in F. specialize (F d I).
      rewrite K, orb_true_r in F. discriminate. }
    rewrite find_none_iff in *. rewrite !Forall_forall in *.
    split.
    + intros H d I. rewrite (T d I), (K d I), (H d I). reflexivity.
    + intros H d I. specialize (H d I).
      apply orb_false_iff in H. tauto.
Qed.

(** X14.  A device with [typewriter] in its name is preferred to every
    other, wherever it stands in the list: the first such device is
    returned, and the tests against [virtual] and [hdmi] are not applied
    to it. *)
Theorem typewriter_name_comes_first
  (devices : list evdev.InputDevice) (device : evdev.InputDevice) :
  In device devices -> named_typewriter device = true ->
  exists found : evdev.InputDevice,
    find_typewriter_device devices = Some found
    /\ find named_typewriter devices = Some found
    /\ named_typewriter found = true.
Proof.
  intros I T. unfold find_typewriter_device.
  destruct (find named_typewriter devices) as [d|] eqn:F.
  - exists d. apply find_some in F. tauto.
  - rewrite find_none_iff, Forall_forall in F. specialize (F device I).
    congruence.
Qed.

Lemma typewriter_name_comes_first_witness :
  exists found : evdev.InputDevice,
    find_typewriter_device [usb_keyboard; virtual_typewriter] = Some found
    /\ find named_typewriter [usb_keyboard; virtual_typewriter] = Some found
    /\ named_typewriter found = true.
Proof.
  apply (typewriter_name_comes_first [usb_keyboard; virtual_typewriter]
           virtual_typewriter).
  - right. left. reflexivity.
  - vm_compute. reflexivity.
Defined.

(** X15.  Without a device named [typewriter], a device whose name holds
    [virtual] or [hdmi] is never returned. *)
Theorem virtual_device_is_not_taken
  (devices : list evdev.InputDevice) (found : evdev.InputDevice) :
  Forall (fun device => named_typewriter device = false) devices ->
  find_typewriter_device devices = Some found ->
  not_virtual_nor_hdmi found = true.
Proof.
  intros F. apply find_none_iff in F. unfold find_typewriter_device.
  rewrite F.
  destruct (find named_keyboard devices) as [d|] eqn:K.
  - intros [= <-]. apply find_some in K. destruct K as [_ K].
    unfold named_keyboard in K. apply andb_prop in K. tauto.
  - intros H. apply find_some in H. destruct H as [_ H].
    unfold has_letter_keys in H.
    destruct (codes_of evdev.EV_KEY (evdev.capabilities found));
      [|discriminate].
    apply andb_prop in H. tauto.
Qed.

Lemma virtual_device_is_not_taken_witness :
  not_virtual_nor_hdmi usb_keyboard = true.
Proof.
  apply (virtual_device_is_not_taken [usb_keyboard] usb_keyboard).
  - repeat constructor.
  - vm_compute. reflexivity.
Defined.

(* ================================================================== *)
(** * The table of quotes *)
(* ================================================================== *)

Lemma load_row_kept (state : literature_clock.quotes * nat) (row : list str) :
  literature_clock.load_row state row
  = match kept row with
    | Some stored =>
        (literature_clock.append (fst state) (row_time stored) stored, S (snd state))
    | None => state
    end.
Proof.
  unfold literature_clock.load_row, kept.
  destruct row as [|a [|b [|c [|d rest]]]]; try reflexivity.
  destruct (existsb _ _); reflexivity.
Qed.

Lemma str_eqb_sym (a b : str) : str_eqb a b = str_eqb b a.
Proof.
  destruct (str_eqb a b) eqn:E.
  - apply str_eqb_eq in E. subst b. symmetry. apply str_eqb_refl.
  - apply str_eqb_neq in E. symmetry. apply str_eqb_neq. congruence.
Qed.

Lemma get_append (d : literature_clock.quotes) (time_code key : str) (row : quote_row) :
  literature_clock.get (literature_clock.append d time_code row) key
  = if str_eqb key time_code
    then Some (match literature_clock.get d time_code with
               | Some rows => rows
               | None => []
               end ++ [row])
    else literature_clock.get d key.
Proof.
  induction d as [|[k rows] d IH]; cbn [literature_clock.append literature_clock.get].
  - destruct (str_eqb key time_code); reflexivity.
  - destruct (str_eqb time_code k) eqn:E; cbn [literature_clock.get].
    + apply str_eqb_eq in E. subst k.
      destruct (str_eqb key time_code); reflexivity.
    + rewrite IH. destruct (str_eqb key k) eqn:K; [|reflexivity].
      apply str_eqb_eq in K. subst k.
      rewrite str_eqb_sym, E. reflexivity.
Qed.

Lemma extend_extend (old : option (list quote_row))
  (a b : list quote_row) :
  extend (extend old a) b = extend old (a ++ b).
Proof.
  destruct a as [|x a]; [reflexivity|].
  destruct b as [|y b]; cbn [extend app].
  - rewrite app_nil_r. reflexivity.
  - rewrite <- app_assoc. reflexivity.
Qed.

Lemma kept_rows_cons (row : list str) (rest : list (list str)) :
  kept_rows (row :: rest)
  = match kept row with Some stored => [stored] | None => [] end
    ++ kept_rows rest.
Proof. cbn [kept_rows]. destruct (kept row); reflexivity. Qed.

Lemma fold_load_row (rows : list (list str)) :
  forall (state : literature_clock.quotes * nat) (time_code : str),
  literature_clock.get (fst (fold_left literature_clock.load_row rows state)) time_code
  = extend (literature_clock.get (fst state) time_code)
      (filter (at_time time_code) (kept_rows rows))
  /\ snd (fold_left literature_clock.load_row rows state)
     = snd state + length (kept_rows rows).
Proof.
  induction rows as [|row rest IH]; intros state time_code.
  - cbn. split; [reflexivity|lia].
  - cbn [fold_left].
    destruct (IH (literature_clock.load_row state row) time_code) as [G C].
    rewrite G, C, kept_rows_cons, filter_app, length_app, <- extend_extend.
    rewrite load_row_kept. destruct (kept row) as [stored|]; cbn [fst snd].
    + split; [|simpl; lia]. f_equal. rewrite get_append.
      cbn [filter]. unfold at_time.
      destruct (str_eqb time_code (row_time stored)) eqn:E; [|reflexivity].
      apply str_eqb_eq in E. subst time_code. reflexivity.
    + split; [reflexivity|simpl; lia].
Qed.

Lemma total_append (d : literature_clock.quotes) (time_code : str) (row : quote_row) :
  literature_clock.get_total_quotes (literature_clock.append d time_code row)
  = S (literature_clock.get_total_quotes d)
  /\ (Forall (fun entry => snd entry <> []) d ->
      Forall (fun entry => snd entry <> []) (literature_clock.append d time_code row)).
Proof.
  unfold literature_clock.get_total_quotes, list_sum.
  induction d as [|[k rows] d [IH IH']];
    cbn [literature_clock.append map fold_right snd].
  - split; [reflexivity|]. intros _. repeat constructor. discriminate.
  - destruct (str_eqb time_code k); cbn [map fold_right snd].
    + rewrite length_app. simpl. split; [lia|].
      intros F. inversion F. constructor; [|assumption].
      cbn. destruct rows; discriminate.
    + rewrite IH. split; [lia|].
      intros F. inversion F. constructor; [assumption|]. apply IH'.
      assumption.
Qed.

Lemma fold_total (rows : list (list str)) :
  forall state : literature_clock.quotes * nat,
  Forall (fun entry => snd entry <> []) (fst state) ->
  literature_clock.get_total_quotes
    (fst (fold_left literature_clock.load_row rows state))
  = literature_clock.get_total_quotes (fst state) + length (kept_rows rows)
  /\ Forall (fun entry => snd entry <> [])
       (fst (fold_left literature_clock.load_row rows state)).
Proof.
  induction rows as [|row rest IH]; intros state F.
  - cbn. split; [lia|exact F].
  - cbn [fold_left]. rewrite kept_rows_cons, length_app.
    assert (S : literature_clock.get_total_quotes
                  (fst (literature_clock.load_row state row))
                = literature_clock.get_total_quotes (fst state)
                  + length match kept row with
                           | Some stored => [stored]
                           | None => []
                           end
                /\ Forall (fun entry => snd entry <> [])
                     (fst (literature_clock.load_row state row))).
    { rewrite load_row_kept. destruct (kept row) as [stored|]; cbn [fst].
      - destruct (total_append (fst state) (row_time stored) stored)
          as [T N].
        rewrite T. split; [simpl; lia|apply N, F].
      - split; [simpl; lia|exact F]. }
    destruct S as [S N]. destruct (IH _ N) as [T N'].
    rewrite T, S. split; [lia|exact N'].
Qed.

Lemma total_at_least_count (d : literature_clock.quotes) :
  Forall (fun entry => snd entry <> []) d ->
  literature_clock.get_time_count d <= literature_clock.get_total_quotes d.
Proof.
  unfold literature_clock.get_time_count, literature_clock.get_total_quotes, list_sum.
  induction 1 as [|[k rows] d N F IH]; cbn [map fold_right length snd];
    [lia|].
  cbn [snd] in N. destruct rows; [contradiction|]. simpl length. lia.
Qed.

(** X16.  Under each time code the table holds the stored rows of that
    time, in the order of the file, and no key without a row. *)
Theorem loaded_table_holds_rows_by_time
  (rows : list (list str)) (time_code : str) :
  literature_clock.get (fst (literature_clock._load_csv rows)) time_code
  = match filter (at_time time_code) (kept_rows rows) with
    | [] => None
    | stored => Some stored
    end.
Proof.
  unfold literature_clock._load_csv.
  rewrite (proj1 (fold_load_row rows ([], 0) time_code)).
  cbn [fst literature_clock.get extend]. destruct (filter _ _); reflexivity.
Qed.

(** X17.  The count [_load_csv] prints is the number of rows stored,
    which [get_total_quotes] gives as well, and there are at most as
    many times as quotes. *)
Theorem quote_count_is_total (rows : list (list str)) :
  snd (literature_clock._load_csv rows) = length (kept_rows rows)
  /\ literature_clock.get_total_quotes (fst (literature_clock._load_csv rows))
     = snd (literature_clock._load_csv rows)
  /\ literature_clock.get_time_count (fst (literature_clock._load_csv rows))
     <= literature_clock.get_total_quotes (fst (literature_clock._load_csv rows)).
Proof.
  unfold literature_clock._load_csv.
  destruct (fold_load_row rows ([], 0) []) as [_ C].
  destruct (fold_total rows ([], 0) (Forall_nil _)) as [T N].
  cbn [fst snd] in *. rewrite C, T.
  split; [reflexivity|]. split; [reflexivity|].
  rewrite <- T. apply total_at_least_count, N.
Qed.

Lemma format_02d_length (n : nat) : 2 <= length (format_02d n).
Proof.
  unfold format_02d.
  destruct (lit (NilEmpty.string_of_uint (Nat.to_uint n))) as [|a [|b rest]];
    simpl; lia.
Qed.

Lemma choice_some {A : Type} (pick : nat) (seq : list A) :
  seq <> [] -> exists x : A, literature_clock.choice pick seq = Some x /\ In x seq.
Proof.
  intros N. unfold literature_clock.choice. destruct seq as [|a seq]; [contradiction|].
  destruct (nth_error (a :: seq) (pick mod length (a :: seq))) as [x|] eqn:E.
  - exists x. split; [reflexivity|]. apply nth_error_In in E. exact E.
  - apply nth_error_None in E.
    pose proof (Nat.mod_upper_bound pick (length (a :: seq))) as B.
    simpl length in *. lia.
Qed.

(** X18.  On a loaded table [get_quote] never draws from an empty list:
    whatever number is drawn it returns a stored row whose time code is
    the one asked for, written with two digits each for hour and minute,
    or it returns [None], and that exactly when no stored row has that
    time code. *)
Theorem get_quote_returns_a_row_of_the_time
  (rows : list (list str)) (pick hour minute : nat) :
  literature_clock.get_quote (fst (literature_clock._load_csv rows)) pick hour
    minute <> literature_clock.IndexError
  /\ (forall quote : quote_row,
      literature_clock.get_quote (fst (literature_clock._load_csv rows)) pick
        hour minute
      = literature_clock.returns (Some quote) ->
      In quote (kept_rows rows)
      /\ row_time quote = time_code_of hour minute
      /\ 5 <= length (row_time quote))
  /\ (literature_clock.get_quote (fst (literature_clock._load_csv rows)) pick
        hour minute = literature_clock.returns None
      <-> Forall (fun stored => row_time stored <> time_code_of hour minute)
            (kept_rows rows)).
Proof.
  unfold literature_clock.get_quote. fold (time_code_of hour minute).
  assert (G : literature_clock.get (fst (literature_clock._load_csv rows))
                (time_code_of hour minute)
              = match filter (at_time (time_code_of hour minute))
                        (kept_rows rows) with
                | [] => None
                | stored => Some stored
                end).
  { unfold literature_clock._load_csv.
    rewrite (proj1 (fold_load_row rows ([], 0) (time_code_of hour minute))).
    cbn [fst literature_clock.get extend]. destruct (filter _ _); reflexivity. }
  rewrite G.
  assert (L : 5 <= length (time_code_of hour minute)).
  { unfold time_code_of. rewrite !length_app.
    pose proof (format_02d_length hour). pose proof (format_02d_length minute).
    simpl. lia. }
  destruct (filter (at_time (time_code_of hour minute)) (kept_rows rows))
    as [|q l] eqn:F.
  - split; [discriminate|]. split; [discriminate|].
    split; [intros _|reflexivity].
    apply Forall_forall. intros x I E.
    assert (I' : In x (filter (at_time (time_code_of hour minute))
                         (kept_rows rows))).
    { apply filter_In. split; [exact I|]. unfold at_time.
      apply str_eqb_eq. symmetry. exact E. }
    rewrite F in I'. exact I'.
  - destruct (choice_some pick (q :: l)) as (x & C & I); [discriminate|].
    rewrite C. split; [discriminate|]. split.
    + intros quote [= <-]. rewrite <- F in I. apply filter_In in I.
      destruct I as [I T]. unfold at_time in T. apply str_eqb_eq in T.
      rewrite <- T. auto.
    + split; [discriminate|]. intros A. exfalso.
      assert (I' : In q (filter (at_time (time_code_of hour minute))
                           (kept_rows rows))) by (rewrite F; left; reflexivity).
      apply filter_In in I'. destruct I' as [I' T].
      rewrite Forall_forall in A. apply (A q I').
      unfold at_time in T. apply str_eqb_eq in T. symmetry. exact T.
Qed.

(* ================================================================== *)
(** * Chunks and lines *)
(* ================================================================== *)

Lemma split_from_spec (s : str) :
  forall (before : str) (k : nat) (cur : str),
  concat (textwrap.split_from before s k cur) = rev cur ++ s
  /\ Forall (fun chunk => chunk <> []) (textwrap.split_from before s k cur).
Proof.
  assert (E : forall cur : str,
            concat (match cur with [] => [] | _ => [rev cur] end) = rev cur
            /\ Forall (fun chunk : str => chunk <> [])
                 (match cur with [] => [] | _ => [rev cur] end)).
  { intros [|c cur]; [split; [reflexivity|constructor]|].
    split; [simpl; apply app_nil_r|].
    constructor; [|constructor]. simpl. destruct (rev cur); discriminate. }
  induction s as [|c s IH]; intros before k cur;
    cbn [textwrap.split_from].
  - destruct (E cur) as [A B]. rewrite app_nil_r. split; [exact A|exact B].
  - destruct k as [|k].
    + destruct (E cur) as [A B].
      destruct (IH (c :: before)
                  (textwrap.wordsep_match before (c :: s) - 1) [c])
        as [A' B'].
      rewrite concat_app. split.
      * f_equal; [exact A|exact A'].
      * apply Forall_app. split; [exact B|exact B'].
    + destruct (IH (c :: before) k (c :: cur)) as [A B].
      rewrite A. simpl. rewrite <- app_assoc. split; [reflexivity|exact B].
Qed.

(** X19.  The chunks the text is split into are not empty, and put
    together again they are the text: the split loses nothing. *)
Theorem split_keeps_the_text (text : str) :
  concat (textwrap._split text) = text
  /\ Forall (fun chunk => chunk <> []) (textwrap._split text).
Proof. apply (split_from_spec text [] 0 []). Qed.








(* ================================================================== *)
(** * The form of a cleaned quote *)
(* ================================================================== *)

(** X21.  A cleaned quote has no whitespace at either end, and the only
    whitespace inside is a space between two other characters: no tab,
    no line feed, no two spaces in a row. *)
Theorem cleaned_quote_is_single_spaced (quote_text : str) :
  strip (clean_quote_text quote_text) = clean_quote_text quote_text
  /\ head_is isspace (clean_quote_text quote_text) = false
  /\ single_spaced false (clean_quote_text quote_text) = true.
Proof.
  destruct quote_text as [|c x]; [repeat split|].
  unfold clean_quote_text.
  set (t := re.sub leading_meridiem_re _ _). rewrite (sub_spaces t).
  split; [apply strip_strip|]. split.
  - unfold strip. apply rstrip_head, lstrip_head.
  - apply (single_spaced_strip _ false), collapse_single_spaced.
Qed.

(* ================================================================== *)
(** * The first pages *)
(* ================================================================== *)

Lemma scroll_checked :
  forallb scroll_is_seven_per_thousand (seq 0 1500) = true.
Proof. vm_compute. reflexivity. Qed.

(** X22.  For a page of fewer than 1500 characters the rounding of the
    product does not show: a render moves the page by 7 pixels for every
    1000 characters, rounded down, so not at all below 143 characters. *)
Theorem scroll_of_a_short_page (n : nat) :
  n < 1500 ->
  scroll n = (7 * Z.of_nat n / 1000)%Z
  /\ (n < 143 -> scroll n = 0%Z).
Proof.
  intros H.
  assert (E : scroll n = (7 * Z.of_nat n / 1000)%Z).
  { pose proof scroll_checked as C. rewrite forallb_forall in C.
    specialize (C n). unfold scroll_is_seven_per_thousand in C.
    apply Z.eqb_eq, C, in_seq. lia. }
  split; [exact E|]. intros S. rewrite E. apply Z.div_small. lia.
Qed.

Lemma scroll_of_a_short_page_witness : scroll 1000 = 7%Z.
Proof.
  exact (proj1 (scroll_of_a_short_page 1000 ltac:(lia))).
Defined.

(** X23.  A clock update is handled the same in both modes: one that is
    still on the queue when a key leaves the clock is drawn over the
    page, with the new quote in the history, and the mode, the page and
    the buffer stay those of the typewriter. *)
Theorem late_clock_update_is_drawn_in_typewriter_mode
  (w : world) (self : TypewriterApp) (current : nat * nat) :
  mode self = typewriter ->
  mode (fst (handle w self (clock_update current))) = typewriter
  /\ text (fst (handle w self (clock_update current))) = text self
  /\ command_buffer (fst (handle w self (clock_update current)))
     = command_buffer self
  /\ In (display_text w current)
       (clock_quotes (fst (handle w self (clock_update current))))
  /\ existsb is_frame (snd (handle w self (clock_update current))) = true.
Proof.
  intros M. cbn [handle]. rewrite update_clock_display_eq.
  cbn [fst snd mode text command_buffer clock_quotes existsb is_frame orb].
  repeat split; [exact M|].
  unfold appended. destruct (15 <? _) eqn:L.
  - destruct (clock_quotes self) as [|q rest]; simpl in *; [discriminate|].
    apply in_or_app. right. left. reflexivity.
  - apply in_or_app. right. left. reflexivity.
Qed.

Lemma late_clock_update_is_drawn_in_typewriter_mode_witness :
  mode (typewriter_page (lit "h") (lit "h")) = typewriter
  /\ existsb is_frame
       (snd (handle calm (typewriter_page (lit "h") (lit "h"))
               (clock_update (10, 24)))) = true.
Proof.
  split; [reflexivity|].
  exact (proj2 (proj2 (proj2 (proj2
           (late_clock_update_is_drawn_in_typewriter_mode calm
              (typewriter_page (lit "h") (lit "h")) (10, 24) eq_refl))))).
Defined.

(* ================================================================== *)
(** * Greedy wrapping *)
(* ================================================================== *)









Lemma visible_concat (chunks : list str) :
  filter visible (concat chunks) = concat (map (filter visible) chunks).
Proof.
  induction chunks as [|c chunks IH]; [reflexivity|].
  cbn [concat map]. rewrite filter_app, IH. reflexivity.
Qed.














